(** * The counting pipeline of JC.PY ([VideoThread])

    A shallow embedding of the worker of [JC.PY]: its configuration
    dictionary, the capture source, the per-frame counting step, the
    processing loop and the control surface ([reset_counters],
    [load_model], [set_source], [stop], [update_params]).

    Conventions.
    - Python [int] is [Z]. A float is the rational it stands for, or
      one of the non-finite values; arithmetic on floats rounds its
      exact result to the format, to nearest with ties to even:
      binary32 for the numpy scalars of [detect_objects], binary64 for
      Python's own floats.
    - A Python [str] is the string of its UTF-8 bytes; [str.lower],
      which needs the Unicode case table of the interpreter, is taken
      from the host.
    - [self.params] is a dictionary with string keys: a [gmap string pyval].
    - [self.counted_ids] is a set of integers: a [gset Z].
    - Every method is a function from the worker before the call to the
      worker after it, together with the list of externally visible
      effects it performed, in order (signals emitted, capture calls,
      sleeps). Of the calls to [logging] only the one that records a new
      count is kept; the drawing calls on the frame are kept for the
      exceptions they raise, the pixels they change are left out.
    - What the host does (file system, capture backend, model backend)
      is a record of functions, [host]; what the tracker answers on a
      frame is carried by the frame itself.
    - The two probes of [__init__] ([_get_optimal_device],
      [_get_available_cameras]) take what the host answers as a record
      or a function; of [App], the handlers that drive the worker
      ([start_video], [pause_video]) are modelled on what they read
      from the widgets. *)

From Stdlib Require Import ZArith QArith Qround Qabs SpecFloat String Ascii List Lia.
From stdpp Require Import gmap strings pretty list fin_maps.

#[local] Set Warnings "-clear-no-such-hyp".

Local Open Scope string_scope.
Local Open Scope list_scope.
Local Open Scope Z_scope.

(** ** Python values *)

(** The values stored in [self.params]: integers, floats and booleans. *)
Inductive pyval :=
| VInt (z : Z)
| VFloat (q : Q)
| VBool (b : bool).

(** A float: a finite value, an infinity or not-a-number. *)
Inductive npfloat :=
| Fin (q : Q)
| PInf
| NInf
| NaN.

(** The integer [e] with [2^e <= a < 2^(e+1)], for a positive [a]. *)
Definition floor_log2 (a : Q) : Z :=
  let e0 := Z.log2 (Qnum a) - Z.log2 (Z.pos (Qden a)) in
  if Qle_bool (2 ^ e0)%Q a then e0 else e0 - 1.

(** The integer nearest to [s], the even one of the two on a tie. *)
Definition round_half_even (s : Q) : Z :=
  let f := Qfloor s in
  match (s - inject_Z f ?= 1 # 2)%Q with
  | Lt => f
  | Gt => f + 1
  | Eq => if Z.even f then f else f + 1
  end.

(** Rounding of an exact result to the binary format with [prec] bits
    of precision and exponents below [emax]: to nearest, ties to even,
    gradual underflow, and an infinity from [2^emax] on. *)
Definition round_float (prec emax : Z) (q : Q) : npfloat :=
  match Qnum q with
  | 0 => Fin 0
  | _ =>
    let a := Qabs q in
    let ulp := Z.max (floor_log2 a - prec + 1) (3 - emax - prec) in
    let m := round_half_even (a / 2 ^ ulp)%Q in
    let r := Qred (inject_Z m * 2 ^ ulp)%Q in
    if Qle_bool (2 ^ emax)%Q r then
      (if Qnum q <? 0 then NInf else PInf)
    else Fin (if Qnum q <? 0 then Qopp r else r)
  end.

(** numpy's float32 and Python's float. *)
Definition round32 : Q -> npfloat := round_float 24 128.
Definition round64 : Q -> npfloat := round_float 53 1024.

(** [a / 2] on float32 scalars (a numpy float32 divided by a Python
    [int] stays a float32). *)
Definition fhalf (a : npfloat) : npfloat :=
  match a with
  | Fin q => round32 (q / 2)%Q
  | other => other
  end.

(** [a - b] on float32 scalars. *)
Definition fsub (a b : npfloat) : npfloat :=
  match a, b with
  | NaN, _ | _, NaN => NaN
  | Fin p, Fin q => round32 (p - q)%Q
  | Fin _, PInf => NInf
  | Fin _, NInf => PInf
  | PInf, PInf => NaN
  | PInf, _ => PInf
  | NInf, NInf => NaN
  | NInf, _ => NInf
  end.

(** ** Exceptions *)

Inductive video_source :=
| Camera (index : Z)
| File (path : string).

Inductive exn :=
| FileNotFoundError (path : string)
| CameraUnavailable (index : Z)        (* ValueError, set_source *)
| UnsupportedVideoFormat               (* ValueError, set_source *)
| CannotOpenSource (s : video_source)  (* ValueError, set_source *)
| UnsupportedModelFormat               (* ValueError, load_model *)
| NanToInt                             (* ValueError, int(nan) *)
| Cv2Error (call : string)             (* raised by a drawing call of cv2 *)
| OverflowError                        (* int(inf) *)
| KeyError (key : string)
| BackendError (code : Z).             (* raised inside the model backend *)

Inductive res (A : Type) :=
| Ok (a : A)
| Raise (e : exn).
Arguments Ok {A} a.
Arguments Raise {A} e.

Definition bind {A B} (r : res A) (k : A -> res B) : res B :=
  match r with
  | Ok a => k a
  | Raise e => Raise e
  end.

Notation "'do' x <- r ; k" := (bind r (fun x => k))
  (at level 10, x name, r at level 100, k at level 200).

(** [int(q)] on a finite float: truncation towards zero. *)
Definition trunc (q : Q) : Z := Z.quot (Qnum q) (Z.pos (Qden q)).

(** [int(v)]; raises on the non-finite values. *)
Definition py_int (v : npfloat) : res Z :=
  match v with
  | Fin q => Ok (trunc q)
  | PInf | NInf => Raise OverflowError
  | NaN => Raise NanToInt
  end.

(** [d[key]] on a dictionary. *)
Definition getitem (d : gmap string pyval) (key : string) : res pyval :=
  match d !! key with
  | Some v => Ok v
  | None => Raise (KeyError key)
  end.

(** ** Strings: [s.endswith(suffixes)] *)

(** Lower-casing of the letters A to Z: what [str.lower] does on a
    string of ASCII characters. The sample hosts use it for their
    [str_lower]. *)
Definition lower_ascii (c : ascii) : ascii :=
  let n := nat_of_ascii c in
  if ((65 <=? n)%nat && (n <=? 90)%nat)%bool then ascii_of_nat (n + 32) else c.

Fixpoint ascii_lower (s : string) : string :=
  match s with
  | EmptyString => EmptyString
  | String c rest => String (lower_ascii c) (ascii_lower rest)
  end.

Fixpoint rev_onto (s acc : string) : string :=
  match s with
  | EmptyString => acc
  | String c rest => rev_onto rest (String c acc)
  end.

Definition endswith (s suffix : string) : bool :=
  String.prefix (rev_onto suffix EmptyString) (rev_onto s EmptyString).

Definition endswith_any (s : string) (suffixes : list string) : bool :=
  existsb (endswith s) suffixes.

(** ** The tracker's answer and the detection list *)

Record xywh_row := {
  x_center : npfloat;
  y_center : npfloat;
  width : npfloat;
  height : npfloat
}.

(** [result.boxes]: the rows of [xywh] and, when tracking associated the
    boxes, their identifiers (already [astype(int)]). *)
Record boxes_t := {
  xywh : list xywh_row;
  id : option (list Z)
}.

(** One element of what [model.track] returns; [boxes] may be [None]. *)
Record track_result := {
  boxes : option boxes_t
}.

Inductive track_outcome :=
| TrackReturns (results : list track_result)
| TrackRaises (e : exn).

(** The box [[x, y, width, height]] built by [detect_objects]. *)
Record box_t := {
  box_x : npfloat;
  box_y : npfloat;
  box_w : npfloat;
  box_h : npfloat
}.

Definition detection : Type := box_t * Z.

(** What [_get_optimal_device] can return. *)
Inductive torch_device := gpu | cuda0 | mps | vulkan | opencl | cpu.

(** A loaded model: the [args] dictionary is all the worker reads of it;
    [fuse_raises] is what [model.fuse()] does. *)
Record yolo := {
  args : gmap string pyval;
  fuse_raises : option exn
}.

(** A frame read from the capture, given by what
    [model.track(source=frame, conf=, iou=, imgsz=, device=, ...)]
    answers on it. *)
Record frame := {
  track : yolo -> pyval -> pyval -> pyval -> torch_device -> track_outcome
}.

(** ** The worker *)

(** A [cv2.VideoCapture] object. *)
Record capture := {
  isOpened : bool;
  cap_frame_height : Q       (* cap.get(CAP_PROP_FRAME_HEIGHT) *)
}.

(** [cap.release()] *)
Definition release (c : capture) : capture :=
  {| isOpened := false; cap_frame_height := cap_frame_height c |}.

Record camera_info := {
  cam_index : Z;
  resolution : string;
  fps : Z
}.

(** The attributes set by [VideoThread.__init__]. *)
Record worker := {
  params : gmap string pyval;
  model : option yolo;
  model_path : string;
  source : video_source;
  running : bool;
  pause : bool;
  cap : option capture;
  tracked_objects : gmap Z box_t;
  next_id : Z;
  frame_height : Z;
  total_count : Z;
  counted_ids : gset Z;
  device : torch_device;
  available_cameras : gmap Z camera_info
}.

Definition default_params : gmap string pyval :=
  <["track_dist" := VInt 50]> (
  <["detect_bottom" := VInt 20]> (
  <["min_area" := VInt 50]> (
  <["max_area" := VInt 5000]> (
  <["model_conf" := VFloat (1 # 2)]> (
  <["model_nms" := VFloat (2 # 5)]> (
  <["model_size" := VInt 640]> (
  <["track_enabled" := VBool true]> (
  <["track_buffer" := VInt 30]> (
  <["track_min_hits" := VInt 3]> ∅))))))))).

(** [__init__], given what the two host probes returned. *)
Definition init (d : torch_device) (cams : gmap Z camera_info) : worker :=
  {| params := default_params;
     model := None;
     model_path := "";
     source := Camera 0;
     running := false;
     pause := false;
     cap := None;
     tracked_objects := ∅;
     next_id := 1;
     frame_height := 0;
     total_count := 0;
     counted_ids := ∅;
     device := d;
     available_cameras := cams |}.

(** Attribute assignments. *)
Definition set_params (p : gmap string pyval) (w : worker) : worker :=
  {| params := p; model := model w; model_path := model_path w;
     source := source w; running := running w; pause := pause w;
     cap := cap w; tracked_objects := tracked_objects w;
     next_id := next_id w; frame_height := frame_height w;
     total_count := total_count w; counted_ids := counted_ids w;
     device := device w; available_cameras := available_cameras w |}.

Definition set_model (m : option yolo) (w : worker) : worker :=
  {| params := params w; model := m; model_path := model_path w;
     source := source w; running := running w; pause := pause w;
     cap := cap w; tracked_objects := tracked_objects w;
     next_id := next_id w; frame_height := frame_height w;
     total_count := total_count w; counted_ids := counted_ids w;
     device := device w; available_cameras := available_cameras w |}.

Definition set_model_path (s : string) (w : worker) : worker :=
  {| params := params w; model := model w; model_path := s;
     source := source w; running := running w; pause := pause w;
     cap := cap w; tracked_objects := tracked_objects w;
     next_id := next_id w; frame_height := frame_height w;
     total_count := total_count w; counted_ids := counted_ids w;
     device := device w; available_cameras := available_cameras w |}.

Definition set_source_attr (s : video_source) (w : worker) : worker :=
  {| params := params w; model := model w; model_path := model_path w;
     source := s; running := running w; pause := pause w;
     cap := cap w; tracked_objects := tracked_objects w;
     next_id := next_id w; frame_height := frame_height w;
     total_count := total_count w; counted_ids := counted_ids w;
     device := device w; available_cameras := available_cameras w |}.

Definition set_running (b : bool) (w : worker) : worker :=
  {| params := params w; model := model w; model_path := model_path w;
     source := source w; running := b; pause := pause w;
     cap := cap w; tracked_objects := tracked_objects w;
     next_id := next_id w; frame_height := frame_height w;
     total_count := total_count w; counted_ids := counted_ids w;
     device := device w; available_cameras := available_cameras w |}.

Definition set_pause (b : bool) (w : worker) : worker :=
  {| params := params w; model := model w; model_path := model_path w;
     source := source w; running := running w; pause := b;
     cap := cap w; tracked_objects := tracked_objects w;
     next_id := next_id w; frame_height := frame_height w;
     total_count := total_count w; counted_ids := counted_ids w;
     device := device w; available_cameras := available_cameras w |}.

Definition set_cap (c : option capture) (w : worker) : worker :=
  {| params := params w; model := model w; model_path := model_path w;
     source := source w; running := running w; pause := pause w;
     cap := c; tracked_objects := tracked_objects w;
     next_id := next_id w; frame_height := frame_height w;
     total_count := total_count w; counted_ids := counted_ids w;
     device := device w; available_cameras := available_cameras w |}.

Definition set_tracked_objects (t : gmap Z box_t) (w : worker) : worker :=
  {| params := params w; model := model w; model_path := model_path w;
     source := source w; running := running w; pause := pause w;
     cap := cap w; tracked_objects := t;
     next_id := next_id w; frame_height := frame_height w;
     total_count := total_count w; counted_ids := counted_ids w;
     device := device w; available_cameras := available_cameras w |}.

Definition set_next_id (n : Z) (w : worker) : worker :=
  {| params := params w; model := model w; model_path := model_path w;
     source := source w; running := running w; pause := pause w;
     cap := cap w; tracked_objects := tracked_objects w;
     next_id := n; frame_height := frame_height w;
     total_count := total_count w; counted_ids := counted_ids w;
     device := device w; available_cameras := available_cameras w |}.

Definition set_frame_height (h : Z) (w : worker) : worker :=
  {| params := params w; model := model w; model_path := model_path w;
     source := source w; running := running w; pause := pause w;
     cap := cap w; tracked_objects := tracked_objects w;
     next_id := next_id w; frame_height := h;
     total_count := total_count w; counted_ids := counted_ids w;
     device := device w; available_cameras := available_cameras w |}.

Definition set_total_count (n : Z) (w : worker) : worker :=
  {| params := params w; model := model w; model_path := model_path w;
     source := source w; running := running w; pause := pause w;
     cap := cap w; tracked_objects := tracked_objects w;
     next_id := next_id w; frame_height := frame_height w;
     total_count := n; counted_ids := counted_ids w;
     device := device w; available_cameras := available_cameras w |}.

Definition set_counted_ids (s : gset Z) (w : worker) : worker :=
  {| params := params w; model := model w; model_path := model_path w;
     source := source w; running := running w; pause := pause w;
     cap := cap w; tracked_objects := tracked_objects w;
     next_id := next_id w; frame_height := frame_height w;
     total_count := total_count w; counted_ids := s;
     device := device w; available_cameras := available_cameras w |}.

(** ** Effects *)

(** Which handler formatted the message of an [error_signal]. *)
Inductive error_origin :=
| ModelLoadFailed   (* load_model *)
| SetSourceFailed   (* set_source *)
| DetectFailed      (* detect_objects *)
| LoopFailed.       (* run *)

Inductive event :=
| LogNewCount (track_id total : Z)        (* logging.info, process_frame *)
| CapRelease                              (* cap.release() *)
| CapSeekFirst                            (* cap.set(CAP_PROP_POS_FRAMES, 0) *)
| CudaEmptyCache                          (* torch.cuda.empty_cache() *)
| ConditionWait                           (* condition.wait(mutex) *)
| Msleep (ms : Z)
| ThreadQuit                              (* self.quit() *)
| EmitChangePixmap
| EmitUpdateCount (total current : Z)     (* the elapsed time is left out *)
| EmitError (origin : error_origin) (e : exn)
| EmitFinished
| EmitModelLoaded (ok : bool)
| EmitParamsUpdated (p : gmap string pyval).

(** What the host answers. *)
Record host := {
  str_lower : string -> string;             (* str.lower *)
  path_exists : string -> bool;             (* os.path.exists *)
  VideoCapture : video_source -> capture;   (* cv2.VideoCapture *)
  YOLO : string -> torch_device -> res yolo (* YOLO(path).to(device) *)
}.

(** ** [reset_counters] *)

Definition reset_counters (w : worker) : worker :=
  set_next_id 1 (
  set_tracked_objects ∅ (
  set_counted_ids ∅ (
  set_total_count 0 w))).

(** ** [detect_objects] *)

(** The body of [for result in results], on the two accumulators. *)
Definition detect_result (acc : list box_t * list Z) (r : track_result)
  : list box_t * list Z :=
  match boxes r with
  | None => acc
  | Some b =>
    let boxes_array := xywh b in
    let track_ids :=
      match id b with
      | Some ids => acc.2 ++ ids
      | None => acc.2 ++ replicate (length boxes_array) (-1)
      end in
    let new_boxes :=
      map (fun row =>
             {| box_x := fsub (x_center row) (fhalf (width row));
                box_y := fsub (y_center row) (fhalf (height row));
                box_w := width row;
                box_h := height row |}) boxes_array in
    (acc.1 ++ new_boxes, track_ids)
  end.

Definition zip_detections (results : list track_result) : list detection :=
  let acc := fold_left detect_result results ([], []) in
  combine acc.1 acc.2.

Definition detect_objects (w : worker) (f : frame)
  : list detection * list event :=
  match model w with
  | None => ([], [])
  | Some m =>
    let answer :=
      do conf <- getitem (params w) "model_conf";
      do iou <- getitem (params w) "model_nms";
      do imgsz <- getitem (params w) "model_size";
      match track f m conf iou imgsz (device w) with
      | TrackReturns results => Ok (zip_detections results)
      | TrackRaises e => Raise e
      end in
    match answer with
    | Ok dets => (dets, [])
    | Raise e => ([], [EmitError DetectFailed e])
    end
  end.

(** ** [process_frame] *)

(** The value of an arithmetic expression: an [int] or a [float]. *)
Inductive pynum :=
| NInt (z : Z)
| NFloat (f : npfloat).

(** [float(z)], as the arithmetic of an [int] with a [float] does it. *)
Definition int_to_float (z : Z) : res Q :=
  match round64 (inject_Z z) with
  | Fin q => Ok q
  | _ => Raise OverflowError
  end.

(** [z - v] for an [int] [z]: exact with an [int] or a [bool], rounded
    to a double with a [float]. *)
Definition py_sub (z : Z) (v : pyval) : res pynum :=
  match v with
  | VInt b => Ok (NInt (z - b))
  | VBool b => Ok (NInt (z - (if b then 1 else 0)))
  | VFloat d =>
    do f <- int_to_float z;
    Ok (NFloat (round64 (f - d)%Q))
  end.

(** [z > line] for an [int] [z]; against a [float] the comparison is on
    the exact values. *)
Definition py_gt (z : Z) (line : pynum) : bool :=
  match line with
  | NInt l => l <? z
  | NFloat (Fin q) => negb (Qle_bool (inject_Z z) q)
  | NFloat NInf => true
  | NFloat PInf | NFloat NaN => false
  end.

(** [(y + h) > (self.frame_height - self.params['detect_bottom'])] *)
Definition touches_bottom (w : worker) (y h : Z) : res bool :=
  do bottom <- getitem (params w) "detect_bottom";
  do line <- py_sub (frame_height w) bottom;
  Ok (py_gt (y + h) line).

(** Whether a coordinate fits the C [int] of a [cv::Point]. *)
Definition c_int (z : Z) : bool := (- 2 ^ 31 <=? z) && (z <? 2 ^ 31).

(** [cv2.rectangle(frame, (x, y), (x+w, y+h), (0, 255, 0), 2)]: raises
    when a coordinate is outside the C [int] range. *)
Definition rectangle (x y bw h : Z) : res unit :=
  if c_int x && c_int y && c_int (x + bw) && c_int (y + h) then Ok tt
  else Raise (Cv2Error "rectangle").

(** [cv2.putText(frame, f"ID:{track_id}", (x, y-5), ...)] *)
Definition putText (x y : Z) : res unit :=
  if c_int x && c_int (y - 5) then Ok tt
  else Raise (Cv2Error "putText").

(** Lines 227 to 235 for one box: the four conversions, the two drawing
    calls, then the bottom test. *)
Definition bottom_test (w : worker) (box : box_t) : res bool :=
  do x <- py_int (box_x box);
  do y <- py_int (box_y box);
  do bw <- py_int (box_w box);
  do h <- py_int (box_h box);
  do _ <- rectangle x y bw h;
  do _ <- putText x y;
  touches_bottom w y h.

(** The body of [for (box, track_id) in results]: the worker (whose
    [counted_ids] the body updates in place) and [current_count]. *)
Definition count_detection (w : worker) (current_count : Z) (d : detection)
  : worker * res Z * list event :=
  let '(box, track_id) := d in
  match bottom_test w box with
  | Raise e => (w, Raise e, [])
  | Ok false => (w, Ok current_count, [])
  | Ok true =>
    if bool_decide (track_id ≠ -1) && bool_decide (track_id ∉ counted_ids w)
    then (set_counted_ids ({[track_id]} ∪ counted_ids w) w,
          Ok (current_count + 1),
          [LogNewCount track_id (total_count w + (current_count + 1))])
    else (w, Ok current_count, [])
  end.

(** The loop of [process_frame]; an exception leaves the loop and keeps
    what was added to [counted_ids] before it. *)
Fixpoint count_detections (w : worker) (current_count : Z)
    (results : list detection) : worker * res Z * list event :=
  match results with
  | [] => (w, Ok current_count, [])
  | d :: rest =>
    match count_detection w current_count d with
    | (w', Ok c, evs) =>
      let '(w'', r, evs') := count_detections w' c rest in
      (w'', r, evs ++ evs')
    | (w', Raise e, evs) => (w', Raise e, evs)
    end
  end.

Definition process_frame (w : worker) (f : frame)
  : worker * res Z * list event :=
  let '(results, evs) := detect_objects w f in
  let '(w', r, evs') := count_detections w 0 results in
  (w', r, evs ++ evs').

(** ** [run] *)

(** What [self.cap.read()] returns: [ret] false, or a frame. *)
Inductive read_outcome :=
| ReadFails
| ReadReturns (f : frame).

(** [self.cap and self.cap.isOpened()] *)
Definition cap_is_open (w : worker) : bool :=
  match cap w with
  | Some c => isOpened c
  | None => false
  end.

(** [self.source != 0] *)
Definition source_ne_0 (s : video_source) : bool :=
  match s with
  | Camera i => bool_decide (i ≠ 0)
  | File _ => true
  end.

(** One iteration of [while True]. When [running] is false the thread
    first waits on the condition; the rest of the iteration is what it
    does once woken. [r] is what the read returns if the iteration
    reaches it. *)
Definition run_iteration (w : worker) (r : read_outcome)
  : worker * list event :=
  let waited := if running w then [] else [ConditionWait] in
  if pause w || negb (cap_is_open w) then
    (w, waited ++ [Msleep 50])
  else
    match r with
    | ReadFails =>
      (w, waited
          ++ (if source_ne_0 (source w) then [CapSeekFirst] else [])
          ++ [EmitFinished])
    | ReadReturns f =>
      match process_frame w f with
      | (w', Ok current_count, evs) =>
        let total := total_count w' + current_count in
        (set_total_count total w',
         waited ++ evs
           ++ [EmitChangePixmap; EmitUpdateCount total current_count;
               Msleep 20])
      | (w', Raise e, evs) =>
        (w', waited ++ evs ++ [EmitError LoopFailed e; Msleep 20])
      end
    end.

(** ** [load_model] *)

(** [if self.model: del self.model; self.model = None; empty_cache()] *)
Definition drop_model (w : worker) : worker * list event :=
  match model w with
  | Some _ => (set_model None w, [CudaEmptyCache])
  | None => (w, [])
  end.

(** [if self.cap and self.cap.isOpened(): self.cap.release()] *)
Definition release_cap (w : worker) : worker * list event :=
  match cap w with
  | Some c =>
    if isOpened c then (set_cap (Some (release c)) w, [CapRelease])
    else (w, [])
  | None => (w, [])
  end.

Definition load_model (hst : host) (w : worker) (path : string)
  : worker * list event :=
  let '(w1, evs) := drop_model w in
  let failed (w' : worker) (e : exn) :=
    (w', evs ++ [EmitError ModelLoadFailed e; EmitModelLoaded false]) in
  if negb (path_exists hst path) then
    failed w1 (FileNotFoundError path)
  else if negb (endswith_any (str_lower hst path) [".pt"; ".pth"]) then
    failed w1 UnsupportedModelFormat
  else
    match YOLO hst path (device w1) with
    | Raise e => failed w1 e
    | Ok m =>
      let w2 := set_model (Some m) w1 in
      match fuse_raises m with
      | Some e => failed w2 e
      | None =>
        let size := default (VInt 640) (args m !! "imgsz") in
        let w3 := set_params (<["model_size" := size]> (params w2)) w2 in
        (set_model_path path w3, evs ++ [EmitModelLoaded true])
      end
    end.

(** ** [set_source] *)

Definition set_source (hst : host) (w : worker) (src : video_source)
  : worker * list event :=
  let '(w1, evs) := release_cap w in
  let w2 := set_source_attr src w1 in
  let failed (w' : worker) (e : exn) :=
    (w', evs ++ [EmitError SetSourceFailed e]) in
  let checked : res unit :=
    match src with
    | Camera i =>
      match available_cameras w2 !! i with
      | Some _ => Ok tt
      | None => Raise (CameraUnavailable i)
      end
    | File path =>
      if negb (path_exists hst path) then Raise (FileNotFoundError path)
      else if negb (endswith_any (str_lower hst path) [".mp4"; ".avi"; ".mkv"])
      then Raise UnsupportedVideoFormat
      else Ok tt
    end in
  match checked with
  | Raise e => failed w2 e
  | Ok _ =>
    let c := VideoCapture hst (source w2) in
    let w3 := set_cap (Some c) w2 in
    if negb (isOpened c) then failed w3 (CannotOpenSource src)
    else
      let w4 := set_frame_height (trunc (cap_frame_height c)) w3 in
      (reset_counters w4, evs)
  end.

(** ** [stop] *)

Definition stop (w : worker) : worker * list event :=
  let w1 := set_pause false (set_running false w) in
  let '(w2, evs2) := release_cap w1 in
  let '(w3, evs3) := drop_model w2 in
  (w3, evs2 ++ evs3 ++ [ThreadQuit]).

(** ** [update_params] *)

Definition update_params (w : worker) (param_name : string) (value : pyval)
  : worker * list event :=
  match params w !! param_name with
  | Some _ =>
    let w' := set_params (<[param_name := value]> (params w)) w in
    (w', [EmitParamsUpdated (params w')])
  | None => (w, [])
  end.

(** ** Sessions *)

(** What can happen to the worker: an iteration of its loop, a call of
    the control surface, or one of the attribute writes the controller
    does directly ([start_video], [pause_video]). *)
Inductive command :=
| Iterate (r : read_outcome)
| ResetCounters
| LoadModel (path : string)
| SetSource (src : video_source)
| Stop
| UpdateParams (param_name : string) (value : pyval)
| SetRunning (b : bool)
| SetPause (b : bool).

Definition exec (hst : host) (w : worker) (c : command)
  : worker * list event :=
  match c with
  | Iterate r => run_iteration w r
  | ResetCounters => (reset_counters w, [])
  | LoadModel path => load_model hst w path
  | SetSource src => set_source hst w src
  | Stop => stop w
  | UpdateParams param_name value => update_params w param_name value
  | SetRunning b => (set_running b w, [])
  | SetPause b => (set_pause b w, [])
  end.

Fixpoint exec_all (hst : host) (w : worker) (cs : list command)
  : worker * list event :=
  match cs with
  | [] => (w, [])
  | c :: rest =>
    let '(w1, evs1) := exec hst w c in
    let '(w2, evs2) := exec_all hst w1 rest in
    (w2, evs1 ++ evs2)
  end.

(** The commands that start a new counting session. *)
Definition resets (c : command) : bool :=
  match c with
  | ResetCounters | SetSource _ => true
  | _ => false
  end.

(** The loop alone, on what its successive reads return. *)
Fixpoint run (w : worker) (reads : list read_outcome)
  : worker * list event :=
  match reads with
  | [] => (w, [])
  | r :: rest =>
    let '(w1, evs1) := run_iteration w r in
    let '(w2, evs2) := run w1 rest in
    (w2, evs1 ++ evs2)
  end.

(** What the trace of a session shows of the counting. *)

(** The per-frame counts published, in order. *)
Fixpoint frame_counts (evs : list event) : list Z :=
  match evs with
  | [] => []
  | EmitUpdateCount _ current :: rest => current :: frame_counts rest
  | _ :: rest => frame_counts rest
  end.

(** The identifiers recorded as newly counted, in order. *)
Fixpoint new_counts (evs : list event) : list Z :=
  match evs with
  | [] => []
  | LogNewCount track_id _ :: rest => track_id :: new_counts rest
  | _ :: rest => new_counts rest
  end.

Definition sum_Z (l : list Z) : Z := fold_right Z.add 0 l.

(** The keys of [self.params] set by [__init__]. *)
Definition config_keys : gset string := dom default_params.

(** ** [_get_optimal_device] *)

(** What the host answers to the probes of [_get_optimal_device]. *)
Record device_probe := {
  cpuinfo : option string;            (* the text of /proc/cpuinfo; [None]
                                         when opening or reading it raises *)
  vchiq_exists : bool;                (* os.path.exists('/dev/vchiq') *)
  cuda_is_available : bool;           (* torch.cuda.is_available() *)
  mps_is_available : option bool;     (* [None]: torch.backends has no mps *)
  vulkan_is_available : option bool;  (* [None]: torch has no vulkan *)
  opencl_is_available : option bool   (* [None]: torch has no opencl *)
}.

(** [sub in s] *)
Definition contains (sub s : string) : bool :=
  match String.index 0 sub s with
  | Some _ => true
  | None => false
  end.

(** [hasattr(...) and ....is_available()] *)
Definition has_and_available (o : option bool) : bool :=
  match o with
  | Some b => b
  | None => false
  end.

Definition get_optimal_device (p : device_probe) : torch_device :=
  let raspberry_gpu :=
    match cpuinfo p with
    | Some text => contains "Raspberry Pi" text && vchiq_exists p
    | None => false
    end in
  if raspberry_gpu then gpu
  else if cuda_is_available p then cuda0
  else if has_and_available (mps_is_available p) then mps
  else if has_and_available (vulkan_is_available p) then vulkan
  else if has_and_available (opencl_is_available p) then opencl
  else cpu.

(** ** [_get_available_cameras] *)

(** What [cv2.VideoCapture(i)] gives while probing: whether it opened,
    whether a first read succeeded, and the three properties read. *)
Record probed_capture := {
  probe_isOpened : bool;
  probe_read : bool;
  probe_width : Q;
  probe_height : Q;
  probe_fps : Q
}.

(** The body of [for i in range(10)]. *)
Definition probe_camera (open_camera : Z -> probed_capture)
    (acc : gmap Z camera_info * list event) (i : Z)
  : gmap Z camera_info * list event :=
  let c := open_camera i in
  if probe_isOpened c then
    let cams :=
      if probe_read c then
        <[i := {| cam_index := i;
                  resolution := pretty (trunc (probe_width c)) +:+ "x"
                                +:+ pretty (trunc (probe_height c));
                  fps := trunc (probe_fps c) |}]> acc.1
      else acc.1 in
    (cams, acc.2 ++ [CapRelease])
  else acc.

Definition get_available_cameras (open_camera : Z -> probed_capture)
  : gmap Z camera_info * list event :=
  fold_left (probe_camera open_camera) (seqZ 0 10) (∅, []).

(** [VideoThread()]: [__init__] with its two probes. *)
Definition VideoThread (p : device_probe) (open_camera : Z -> probed_capture)
  : worker * list event :=
  let '(cams, evs) := get_available_cameras open_camera in
  (init (get_optimal_device p) cams, evs).

(** ** The handlers of [App] that drive the worker *)

(** What [start_video] reads from the widgets. *)
Record source_choice := {
  camera_radio : bool;        (* camera_radio.isChecked() *)
  camera_combo : option Z;    (* camera_combo.currentData() *)
  video_path_edit : string    (* video_path_edit.text() *)
}.

(** What a handler does besides changing the worker; enabling and
    relabelling of widgets is left out. *)
Inductive gui_event :=
| WarnSelectModel                 (* QMessageBox.warning *)
| ErrorSelectCamera               (* show_error, ValueError of start_video *)
| ErrorSelectVideo                (* show_error, ValueError of start_video *)
| FromWorker (e : event)
| WakeAll.                        (* condition.wakeAll() *)

Definition start_video (hst : host) (w : worker) (ch : source_choice)
  : worker * list gui_event :=
  match model w with
  | None => (w, [WarnSelectModel])
  | Some _ =>
    let chosen : gui_event + video_source :=
      if camera_radio ch then
        match camera_combo ch with
        | None => inl ErrorSelectCamera
        | Some i => inr (Camera i)
        end
      else
        match video_path_edit ch with
        | EmptyString => inl ErrorSelectVideo
        | path => inr (File path)
        end in
    match chosen with
    | inl e => (w, [e])
    | inr src =>
      let '(w1, evs) := set_source hst w src in
      (set_pause false (set_running true w1),
       map FromWorker evs ++ [WakeAll])
    end
  end.

Definition pause_video (w : worker) : worker :=
  if running w then set_pause (negb (pause w)) w else w.

(** ** Reading traces and tracker answers *)

(** The errors emitted on [error_signal], in order. *)
Fixpoint errors_of (evs : list event) : list (error_origin * exn) :=
  match evs with
  | [] => []
  | EmitError origin e :: rest => (origin, e) :: errors_of rest
  | _ :: rest => errors_of rest
  end.

(** The values emitted on [model_loaded], in order. *)
Fixpoint model_loaded_of (evs : list event) : list bool :=
  match evs with
  | [] => []
  | EmitModelLoaded ok :: rest => ok :: model_loaded_of rest
  | _ :: rest => model_loaded_of rest
  end.

(** Whether the handler of [run] reported an exception. *)
Fixpoint loop_failed (evs : list event) : bool :=
  match evs with
  | [] => false
  | EmitError LoopFailed _ :: _ => true
  | _ :: rest => loop_failed rest
  end.

(** How far [total_count] moved against the identifiers logged: never
    further, and exactly as far when the handler of [run] reported no
    exception. *)
Definition tally (w w' : worker) (evs : list event) : Prop :=
  total_count w' - total_count w ≤ Z.of_nat (length (new_counts evs))
  ∧ (loop_failed evs = false ->
     total_count w' - total_count w = Z.of_nat (length (new_counts evs))).

(** The entry [_get_available_cameras] records for camera [i]. *)
Definition probe_info (open_camera : Z -> probed_capture) (i : Z)
  : camera_info :=
  {| cam_index := i;
     resolution := pretty (trunc (probe_width (open_camera i))) +:+ "x"
                   +:+ pretty (trunc (probe_height (open_camera i)));
     fps := trunc (probe_fps (open_camera i)) |}.

(** The box [detect_objects] builds from one row of [xywh]. *)
Definition box_of_row (row : xywh_row) : box_t :=
  {| box_x := fsub (x_center row) (fhalf (width row));
     box_y := fsub (y_center row) (fhalf (height row));
     box_w := width row;
     box_h := height row |}.

(** The detections of one tracker result taken alone: its boxes paired
    with its identifiers, or with -1 when it carries none. *)
Definition detections_of_result (r : track_result) : list detection :=
  match boxes r with
  | None => []
  | Some b =>
    combine (map box_of_row (xywh b))
            (match id b with
             | Some ids => ids
             | None => replicate (length (xywh b)) (-1)
             end)
  end.

(** A result whose identifiers, when it has some, are as many as its
    rows. *)
Definition aligned (r : track_result) : Prop :=
  ∀ b ids, boxes r = Some b -> id b = Some ids ->
    length ids = length (xywh b).

(** ** What a trace says about the counters *)

(** What one pass of the loop of [process_frame] does: it touches
    [counted_ids] only, adds to it exactly the identifiers it logs, each
    of them once, none of them -1 or counted before, and returns the
    count it was given plus the number of identifiers it logged. *)
Record counting (w w' : worker) (c : Z) (r : res Z) (evs : list event)
  : Prop := {
  counting_rest : w' = set_counted_ids (counted_ids w') w;
  counting_set : counted_ids w' = list_to_set (new_counts evs) ∪ counted_ids w;
  counting_NoDup : NoDup (new_counts evs);
  counting_fresh : ∀ t, t ∈ new_counts evs -> t ≠ -1 ∧ t ∉ counted_ids w;
  counting_silent : frame_counts evs = [];
  counting_result : ∀ c', r = Ok c' -> c' = c + Z.of_nat (length (new_counts evs))
}.

(** What a stretch of a session shows: the identifiers logged are each
    logged once, none is -1 or was counted at the start, [counted_ids]
    has grown by exactly them, and [total_count] by the sum of the
    per-frame counts published, none of which is negative. *)
Record session (w w' : worker) (evs : list event) : Prop := {
  session_set : counted_ids w' = list_to_set (new_counts evs) ∪ counted_ids w;
  session_NoDup : NoDup (new_counts evs);
  session_fresh : ∀ t, t ∈ new_counts evs -> t ≠ -1 ∧ t ∉ counted_ids w;
  session_total : total_count w' = total_count w + sum_Z (frame_counts evs);
  session_nonneg : Forall (fun n => 0 ≤ n) (frame_counts evs)
}.


(** ** Workers, frames and a host for the examples *)

Module Fixtures.

Definition fq (z : Z) : npfloat := Fin (inject_Z z).

(** A box given by its top-left corner and size, as [detect_objects]
    builds it. *)
Definition box (x y bw bh : Z) : box_t :=
  {| box_x := fq x; box_y := fq y; box_w := fq bw; box_h := fq bh |}.

(** A frame on which the tracker answers one box, given by its centre. *)
Definition one_box (xc yc bw bh : Z) (track_id : option Z) : frame :=
  {| track := fun _ _ _ _ _ =>
       TrackReturns
         [ {| boxes :=
                Some {| xywh := [ {| x_center := fq xc; y_center := fq yc;
                                     width := fq bw; height := fq bh |} ];
                        id := option_map (fun t => [t]) track_id |} |} ] |}.

Definition a_model : yolo := {| args := ∅; fuse_raises := None |}.

(** A host where every path exists, every capture opens with 600 rows
    and every model loads. *)
Definition a_host : host :=
  {| str_lower := ascii_lower;
     path_exists := fun _ => true;
     VideoCapture := fun _ => {| isOpened := true; cap_frame_height := 600 |};
     YOLO := fun _ _ => Ok a_model |}.

Definition cam (i : Z) : camera_info :=
  {| cam_index := i; resolution := "640x480"; fps := 30 |}.

Definition two_cameras : gmap Z camera_info :=
  <[0 := cam 0]> (<[1 := cam 1]> ∅).

Definition fresh : worker := init cpu two_cameras.

(** The worker after [select_model] and [start_video] on a video file. *)
Definition playing_file : worker :=
  (exec_all a_host fresh
     [LoadModel "best.pt"; SetSource (File "belt.mp4");
      SetRunning true; SetPause false]).1.

(** The same on the second camera. *)
Definition playing_camera_1 : worker :=
  (exec_all a_host fresh
     [LoadModel "best.pt"; SetSource (Camera 1);
      SetRunning true; SetPause false]).1.

End Fixtures.

(** ** More frames and hosts for the examples *)

Module Samples.

(** A frame with two boxes: the first touches the bottom with
    identifier 7, the second has a centre that is not a number. *)
Definition half_counted : frame :=
  {| track := fun _ _ _ _ _ =>
       TrackReturns
         [ {| boxes :=
                Some {| xywh := [ {| x_center := Fin 20; y_center := Fin 575;
                                     width := Fin 20; height := Fin 30 |};
                                  {| x_center := Fin 60; y_center := NaN;
                                     width := Fin 20; height := Fin 30 |} ];
                        id := Some [7; 8] |} |} ] |}.

(** A frame on which the tracker raises. *)
Definition raising : frame :=
  {| track := fun _ _ _ _ _ => TrackRaises (BackendError 1) |}.

(** A probe of the cameras where only 0 and 2 open, and 2 gives no
    frame. *)
Definition open_camera (i : Z) : probed_capture :=
  {| probe_isOpened := bool_decide (i = 0) || bool_decide (i = 2);
     probe_read := bool_decide (i = 0);
     probe_width := 640; probe_height := 480; probe_fps := 30 |}.

Definition laptop : device_probe :=
  {| cpuinfo := Some "model name : Intel(R) Core(TM)";
     vchiq_exists := false;
     cuda_is_available := false;
     mps_is_available := Some false;
     vulkan_is_available := None;
     opencl_is_available := None |}.

End Samples.

#[local] Arguments endswith_any : simpl never.

(** Closes a goal whose hypothesis finds the success signal in a trace
    that does not hold it. *)
Ltac no_success :=
  let H := fresh in
  intros H; exfalso;
  repeat (apply elem_of_cons in H as [H | H]; [discriminate H | ]);
  by apply elem_of_nil in H.

(** * Properties *)

(** ** Arithmetic of the count line *)

Lemma negb_Qle_bool_lt (a b : Q) :
  negb (Qle_bool a b) = true <-> (b < a)%Q.
Proof.
  rewrite negb_true_iff, <- not_true_iff_false, Qle_bool_iff.
  split; [apply Qnot_le_lt | apply Qlt_not_le].
Qed.

Lemma touches_bottom_spec (w : worker) (y h : Z) (bottom : pyval)
    (line : pynum) :
  params w !! "detect_bottom" = Some bottom ->
  py_sub (frame_height w) bottom = Ok line ->
  touches_bottom w y h = Ok (py_gt (y + h) line).
Proof.
  intros Hb Hl. unfold touches_bottom, getitem. rewrite Hb. simpl.
  by rewrite Hl.
Qed.

(** With an integer offset the test is the strict integer comparison. *)
Lemma py_gt_int (fh b z : Z) (line : pynum) :
  py_sub fh (VInt b) = Ok line ->
  py_gt z line = true <-> fh - b < z.
Proof.
  intros [= <-]. simpl. apply Z.ltb_lt.
Qed.

(** With a float offset it compares with the rounded difference. *)
Lemma py_gt_float (z : Z) (q : Q) :
  py_gt z (NFloat (Fin q)) = true <-> (q < inject_Z z)%Q.
Proof. simpl. apply negb_Qle_bool_lt. Qed.

(** A frame height of 600 less an offset of 1e-17 is the double 600,
    which a bottom edge of 600 does not exceed. *)
Example py_sub_rounds :
  py_sub 600 (VFloat (1 # 100000000000000000)) = Ok (NFloat (Fin 600))
  ∧ py_gt 600 (NFloat (Fin 600)) = false.
Proof. by vm_compute. Qed.

(** The rounding agrees with the subtraction of the Standard Library's
    specification of IEEE 754 on sample values of both formats. *)
Example round_float_agrees_with_SFsub :
  let value (f : spec_float) : npfloat :=
    match f with
    | S754_zero _ => Fin 0
    | S754_infinity s => if s then NInf else PInf
    | S754_nan => NaN
    | S754_finite s m e =>
      Fin (Qred ((if s then -1 else 1) * inject_Z (Z.pos m) * 2 ^ e)%Q)
    end in
  (* 566 - (15 + 2^-20) in binary32, 600 - 3 * 2^-60 in binary64 *)
  value (SFsub 24 128 (binary_normalize 24 128 566 0 false)
                      (binary_normalize 24 128 (15 * 2 ^ 20 + 1) (-20) false))
  = round32 (566 - (15 * 2 ^ 20 + 1 # 2 ^ 20))%Q
  ∧ value (SFsub 53 1024 (binary_normalize 53 1024 600 0 false)
                         (binary_normalize 53 1024 3 (-60) false))
    = round64 (600 - (3 # 2 ^ 60))%Q
  ∧ round32 (566 - (15 * 2 ^ 20 + 1 # 2 ^ 20))%Q = Fin 551.
Proof. by vm_compute. Qed.

(** ** The counting rule *)

(** C1, as stated, fails on the count line itself: with 600 rows and
    [detect_bottom = 20] a box whose bottom edge is 580 and whose
    identifier is 7, not yet counted, meets the three conditions of the
    claim and is not counted. *)
Lemma count_detection_on_the_line_not_counted :
  let w := set_frame_height 600 Fixtures.fresh in
  let d := (Fixtures.box 10 560 20 20, 7) in
  (7 ≠ -1 ∧ 600 - 20 ≤ 560 + 20 ∧ 7 ∉ counted_ids w)
  ∧ count_detection w 0 d = (w, Ok 0, []).
Proof.
  split.
  - split; [lia | split; [lia | ]]. simpl. set_solver.
  - vm_compute. reflexivity.
Qed.

(** C1, amended: a detection whose box converts to integers and is
    drawn (its corners fit the C [int] of the drawing calls) is counted,
    and its identifier recorded, exactly when the identifier is not -1,
    the bottom edge [int(y) + int(h)] is greater than the count line
    [frame_height - detect_bottom] as Python computes it, and the
    identifier is not yet in [counted_ids]; otherwise the count and the
    worker are unchanged. The comparison is strict: with an integer
    offset it is [frame_height - detect_bottom < int(y) + int(h)], and
    with a float offset it is against the difference rounded to a
    double. *)
Theorem count_detection_counts_iff
    (w : worker) (c : Z) (box : box_t) (track_id : Z)
    (x y bw h : Z) (bottom : pyval) (line : pynum) :
  py_int (box_x box) = Ok x ->
  py_int (box_y box) = Ok y ->
  py_int (box_w box) = Ok bw ->
  py_int (box_h box) = Ok h ->
  rectangle x y bw h = Ok tt ->
  putText x y = Ok tt ->
  params w !! "detect_bottom" = Some bottom ->
  py_sub (frame_height w) bottom = Ok line ->
  let crossing :=
    track_id ≠ -1
    ∧ py_gt (y + h) line = true
    ∧ track_id ∉ counted_ids w in
  let '(w', r, evs) := count_detection w c (box, track_id) in
  ((r = Ok (c + 1) ∧ counted_ids w' = {[track_id]} ∪ counted_ids w)
   <-> crossing)
  ∧ (¬ crossing -> r = Ok c ∧ w' = w ∧ evs = [])
  ∧ (∀ b, bottom = VInt b ->
       (py_gt (y + h) line = true <-> frame_height w - b < y + h))
  ∧ (∀ q, line = NFloat (Fin q) ->
       (py_gt (y + h) line = true <-> (q < inject_Z (y + h))%Q)).
Proof.
  intros Hx Hy Hw Hh Hr Hp Hb Hl crossing.
  pose proof (touches_bottom_spec w y h bottom line Hb Hl) as Ht.
  assert (Hint : ∀ b, bottom = VInt b ->
            (py_gt (y + h) line = true <-> frame_height w - b < y + h)).
  { intros b ->. by apply py_gt_int. }
  assert (Hfl : ∀ q, line = NFloat (Fin q) ->
            (py_gt (y + h) line = true <-> (q < inject_Z (y + h))%Q)).
  { intros q ->. apply py_gt_float. }
  unfold count_detection, bottom_test.
  rewrite Hx, Hy, Hw, Hh. simpl. rewrite Hr, Hp. simpl. rewrite Ht.
  destruct (py_gt (y + h) line) eqn:Hgt.
  - destruct (bool_decide (track_id ≠ -1)) eqn:E1;
      destruct (bool_decide (track_id ∉ counted_ids w)) eqn:E2; simpl;
      try apply bool_decide_eq_true_1 in E1;
      try apply bool_decide_eq_true_1 in E2;
      try apply bool_decide_eq_false_1 in E1;
      try apply bool_decide_eq_false_1 in E2.
    + assert (crossing) by (unfold crossing; intuition).
      split; [tauto | split; [tauto | done]].
    + split; [ | split; [tauto | done]]. split.
      * intros [Hr' _]. inversion Hr'. lia.
      * unfold crossing. tauto.
    + split; [ | split; [tauto | done]]. split.
      * intros [Hr' _]. inversion Hr'. lia.
      * unfold crossing. tauto.
    + split; [ | split; [tauto | done]]. split.
      * intros [Hr' _]. inversion Hr'. lia.
      * unfold crossing. tauto.
  - split; [ | split; [tauto | done]]. split.
    + intros [Hr' _]. inversion Hr'. lia.
    + unfold crossing. intros (_ & Hlt & _). discriminate.
Qed.

Lemma count_detection_counts_iff_witness :
  let w := set_frame_height 600 Fixtures.fresh in
  let '(w', r, evs) := count_detection w 0 (Fixtures.box 10 560 20 30, 7) in
  ((r = Ok (0 + 1) ∧ counted_ids w' = {[7]} ∪ counted_ids w)
   <-> (7 ≠ -1 ∧ py_gt (560 + 30) (NInt 580) = true ∧ 7 ∉ counted_ids w))
  ∧ (¬ (7 ≠ -1 ∧ py_gt (560 + 30) (NInt 580) = true ∧ 7 ∉ counted_ids w)
     -> r = Ok 0 ∧ w' = w ∧ evs = [])
  ∧ (∀ b, VInt 20 = VInt b ->
       (py_gt (560 + 30) (NInt 580) = true <-> frame_height w - b < 560 + 30))
  ∧ (∀ q, NInt 580 = NFloat (Fin q) ->
       (py_gt (560 + 30) (NInt 580) = true <-> (q < inject_Z (560 + 30))%Q)).
Proof.
  exact (count_detection_counts_iff
           (set_frame_height 600 Fixtures.fresh) 0
           (Fixtures.box 10 560 20 30) 7 10 560 20 30 (VInt 20) (NInt 580)
           eq_refl eq_refl eq_refl eq_refl eq_refl eq_refl eq_refl eq_refl).
Defined.

(** A box whose corner does not fit the C [int] is not counted: the
    drawing call raises before the bottom test. *)
Example count_detection_drawing_raises :
  count_detection (set_frame_height 600 Fixtures.fresh) 0
    (Fixtures.box 3000000000 560 20 30, 7)
  = (set_frame_height 600 Fixtures.fresh, Raise (Cv2Error "rectangle"), []).
Proof. by vm_compute. Qed.

(** The untracked identifier is never counted, wherever the box is and
    whatever it holds. *)
Lemma untracked_never_counted (w : worker) (c : Z) (box : box_t) :
  ∃ r, count_detection w c (box, -1) = (w, r, []) ∧ r ≠ Ok (c + 1).
Proof.
  unfold count_detection.
  destruct (bottom_test w box) as [[|]|e]; simpl.
  - eexists. split; [done|]. intros [= ?]. lia.
  - eexists. split; [done|]. intros [= ?]. lia.
  - by eexists.
Qed.

(** ** [set_source] on a camera that was not probed *)

(** C2, as stated, fails: from a worker playing a file, [set_source] on
    camera 5 (not probed) reports the failure but has by then released
    the open capture and stored the rejected source. *)
Lemma unavailable_camera_releases_open_capture :
  let w := Fixtures.playing_file in
  let '(w', evs) := set_source Fixtures.a_host w (Camera 5) in
  cap_is_open w = true
  ∧ available_cameras w !! 5 = None
  ∧ evs = [CapRelease; EmitError SetSourceFailed (CameraUnavailable 5)]
  ∧ cap_is_open w' = false
  ∧ source w = File "belt.mp4" ∧ source w' = Camera 5
  ∧ w' ≠ w.
Proof.
  vm_compute. repeat split; discriminate.
Qed.

Lemma release_cap_closed (w : worker) :
  cap_is_open (release_cap w).1 = false.
Proof.
  unfold release_cap, cap_is_open.
  destruct (cap w) as [c|] eqn:Hc; simpl; [ | by rewrite Hc].
  destruct (isOpened c) eqn:Ho; simpl; [done | by rewrite Hc].
Qed.

(** C2, amended: [set_source] with a camera index that was not probed
    reports the failure on [error_signal] and resets nothing: the
    counting session ([total_count], [counted_ids], [frame_height]),
    the configuration and the model are as before. The capture that
    was open has been released and the rejected index is stored as the
    source. *)
Theorem set_source_unavailable_camera
    (hst : host) (w : worker) (i : Z) :
  available_cameras w !! i = None ->
  let '(w', evs) := set_source hst w (Camera i) in
  w' = set_source_attr (Camera i) (release_cap w).1
  ∧ evs = (release_cap w).2 ++ [EmitError SetSourceFailed (CameraUnavailable i)]
  ∧ total_count w' = total_count w
  ∧ counted_ids w' = counted_ids w
  ∧ frame_height w' = frame_height w
  ∧ params w' = params w
  ∧ model w' = model w
  ∧ cap_is_open w' = false
  ∧ source w' = Camera i.
Proof.
  intros Hi. unfold set_source.
  pose proof (release_cap_closed w) as Hclosed.
  assert (Hav : available_cameras (release_cap w).1 = available_cameras w).
  { unfold release_cap. destruct (cap w) as [c|]; [destruct (isOpened c)|]; done. }
  assert (Hsame : total_count (release_cap w).1 = total_count w
                  ∧ counted_ids (release_cap w).1 = counted_ids w
                  ∧ frame_height (release_cap w).1 = frame_height w
                  ∧ params (release_cap w).1 = params w
                  ∧ model (release_cap w).1 = model w).
  { unfold release_cap. destruct (cap w) as [c|]; [destruct (isOpened c)|]; done. }
  destruct (release_cap w) as [w1 evs]. simpl in *.
  rewrite Hav, Hi. simpl. intuition.
Qed.

Lemma set_source_unavailable_camera_witness :
  let '(w', evs) := set_source Fixtures.a_host Fixtures.playing_file (Camera 5) in
  w' = set_source_attr (Camera 5) (release_cap Fixtures.playing_file).1
  ∧ evs = (release_cap Fixtures.playing_file).2
            ++ [EmitError SetSourceFailed (CameraUnavailable 5)]
  ∧ total_count w' = total_count Fixtures.playing_file
  ∧ counted_ids w' = counted_ids Fixtures.playing_file
  ∧ frame_height w' = frame_height Fixtures.playing_file
  ∧ params w' = params Fixtures.playing_file
  ∧ model w' = model Fixtures.playing_file
  ∧ cap_is_open w' = false
  ∧ source w' = Camera 5.
Proof.
  exact (set_source_unavailable_camera
           Fixtures.a_host Fixtures.playing_file 5 eq_refl).
Defined.

(** ** [update_params] *)

(** C7: with the keys of [__init__] in the dictionary, [update_params]
    on a name that is not one of them returns the worker as it was and
    emits nothing, and on one of them stores the value under that name,
    leaves every other attribute and every other key alone, and emits
    [params_updated]. *)
Theorem update_params_recognized
    (w : worker) (param_name : string) (value : pyval) :
  dom (params w) = config_keys ->
  (param_name ∉ config_keys -> update_params w param_name value = (w, []))
  ∧ (param_name ∈ config_keys ->
     let '(w', evs) := update_params w param_name value in
     w' = set_params (<[param_name := value]> (params w)) w
     ∧ params w' !! param_name = Some value
     ∧ (∀ k, k ≠ param_name -> params w' !! k = params w !! k)
     ∧ dom (params w') = config_keys
     ∧ evs = [EmitParamsUpdated (params w')]).
Proof.
  intros Hdom. unfold update_params. split.
  - intros Hn. rewrite <- Hdom in Hn. apply not_elem_of_dom in Hn.
    by rewrite Hn.
  - intros Hin. rewrite <- Hdom in Hin.
    pose proof Hin as Hin'. apply elem_of_dom in Hin' as [v Hv].
    rewrite Hv. simpl. split; [done|].
    split; [apply lookup_insert_eq|].
    split; [intros k Hk; by apply lookup_insert_ne|].
    split; [|done].
    rewrite dom_insert_L, <- Hdom.
    apply subseteq_union_1_L, singleton_subseteq_l, Hin.
Qed.

Lemma update_params_recognized_witness :
  update_params Fixtures.fresh "model_con" (VFloat (4 # 5))
  = (Fixtures.fresh, [])
  ∧ (let '(w', evs) :=
       update_params Fixtures.fresh "model_conf" (VFloat (4 # 5)) in
     w' = set_params (<["model_conf" := VFloat (4 # 5)]> (params Fixtures.fresh))
            Fixtures.fresh
     ∧ params w' !! "model_conf" = Some (VFloat (4 # 5))
     ∧ (∀ k, k ≠ "model_conf" -> params w' !! k = params Fixtures.fresh !! k)
     ∧ dom (params w') = config_keys
     ∧ evs = [EmitParamsUpdated (params w')]).
Proof.
  split.
  - apply (proj1 (update_params_recognized
                    Fixtures.fresh "model_con" (VFloat (4 # 5)) eq_refl)).
    apply not_elem_of_dom. reflexivity.
  - apply (proj2 (update_params_recognized
                    Fixtures.fresh "model_conf" (VFloat (4 # 5)) eq_refl)).
    apply elem_of_dom. eexists. reflexivity.
Defined.

(** ** [stop] *)

Lemma drop_model_none (w : worker) : model (drop_model w).1 = None.
Proof. unfold drop_model. destruct (model w) eqn:Hm; simpl; done. Qed.

Lemma drop_model_cap (w : worker) : cap (drop_model w).1 = cap w.
Proof. unfold drop_model. destruct (model w); done. Qed.

Lemma release_cap_idle (w : worker) :
  cap_is_open w = false -> release_cap w = (w, []).
Proof.
  unfold cap_is_open, release_cap.
  destruct (cap w) as [c|]; [ | done]. by intros ->.
Qed.

Lemma drop_model_idle (w : worker) :
  model w = None -> drop_model w = (w, []).
Proof. unfold drop_model. by intros ->. Qed.

(** C8: [stop] has no failing outcome; a first call releases the
    capture if one is open and drops the model if one is loaded, so that
    after it no capture is open, the model is [None] and the two flags
    are false; a second call finds nothing to release: it leaves the
    worker as the first call left it and only calls [quit] again. *)
Theorem stop_twice (w : worker) :
  let '(w1, evs1) := stop w in
  let '(w2, evs2) := stop w1 in
  evs1 = (if cap_is_open w then [CapRelease] else [])
           ++ (if model w is Some _ then [CudaEmptyCache] else [])
           ++ [ThreadQuit]
  ∧ cap_is_open w1 = false
  ∧ model w1 = None
  ∧ running w1 = false ∧ pause w1 = false
  ∧ w2 = w1
  ∧ evs2 = [ThreadQuit].
Proof.
  unfold stop.
  set (w0 := set_pause false (set_running false w)).
  pose proof (release_cap_closed w0) as Hc.
  assert (Hrel : running (release_cap w0).1 = false
                 ∧ pause (release_cap w0).1 = false
                 ∧ model (release_cap w0).1 = model w
                 ∧ (release_cap w0).2
                   = if cap_is_open w then [CapRelease] else []).
  { unfold release_cap, cap_is_open. simpl.
    destruct (cap w) as [c|]; [destruct (isOpened c)|]; done. }
  destruct (release_cap w0) as [wa evsa]. simpl in *.
  destruct Hrel as (Hr & Hp & Hmw & ->).
  pose proof (drop_model_none wa) as Hm.
  pose proof (drop_model_cap wa) as Hcap.
  assert (Hdrop : running (drop_model wa).1 = false
                  ∧ pause (drop_model wa).1 = false
                  ∧ (drop_model wa).2
                    = if model w is Some _ then [CudaEmptyCache] else []).
  { unfold drop_model. rewrite Hmw. destruct (model w); simpl; tauto. }
  destruct (drop_model wa) as [wb evsb]. simpl in *.
  destruct Hdrop as (Hr' & Hp' & ->).
  assert (Hcb : cap_is_open wb = false).
  { unfold cap_is_open in *. by rewrite Hcap. }
  assert (Hid : set_pause false (set_running false wb) = wb).
  { destruct wb; simpl in *. by subst. }
  rewrite Hid, (release_cap_idle wb Hcb), (drop_model_idle wb Hm).
  simpl. repeat split; assumption.
Qed.

(** ** No model loaded *)

(** C9: without a model [detect_objects] returns the empty list and
    emits nothing, [process_frame] returns the count 0 with the worker
    unchanged, and an iteration of the loop that reads the frame
    publishes the count 0 and no error. *)
Theorem process_frame_without_model (w : worker) (f : frame) :
  model w = None ->
  detect_objects w f = ([], [])
  ∧ process_frame w f = (w, Ok 0, [])
  ∧ (∀ origin e, EmitError origin e ∉ (run_iteration w (ReadReturns f)).2)
  ∧ (pause w = false -> cap_is_open w = true ->
     frame_counts (run_iteration w (ReadReturns f)).2 = [0]).
Proof.
  intros Hm.
  assert (Hd : detect_objects w f = ([], []))
    by (unfold detect_objects; by rewrite Hm).
  assert (Hp : process_frame w f = (w, Ok 0, []))
    by (unfold process_frame; by rewrite Hd).
  split; [done|]. split; [done|].
  unfold run_iteration. rewrite Hp. split.
  - intros origin e.
    destruct (running w), (pause w), (cap_is_open w); simpl; set_solver.
  - intros -> ->. simpl. destruct (running w); reflexivity.
Qed.

Lemma process_frame_without_model_witness :
  let w := (set_source Fixtures.a_host Fixtures.fresh (Camera 0)).1 in
  let f := Fixtures.one_box 20 575 20 30 (Some 7) in
  detect_objects w f = ([], [])
  ∧ process_frame w f = (w, Ok 0, [])
  ∧ (∀ origin e, EmitError origin e ∉ (run_iteration w (ReadReturns f)).2)
  ∧ frame_counts (run_iteration w (ReadReturns f)).2 = [0].
Proof.
  pose proof (process_frame_without_model
                (set_source Fixtures.a_host Fixtures.fresh (Camera 0)).1
                (Fixtures.one_box 20 575 20 30 (Some 7)) eq_refl)
    as (H1 & H2 & H3 & H4).
  split; [exact H1 | split; [exact H2 | split; [exact H3 | ]]].
  apply H4; reflexivity.
Defined.

(** ** [load_model] *)

(** [load_model] leaves the configuration alone or overwrites
    [model_size]. *)
Lemma load_model_params (hst : host) (w : worker) (path : string) :
  params (load_model hst w path).1 = params w
  ∨ ∃ v, params (load_model hst w path).1 = <["model_size" := v]> (params w).
Proof.
  unfold load_model, drop_model.
  destruct (model w); simpl;
    destruct (path_exists hst path); simpl; auto;
    destruct (endswith_any (str_lower hst path) [".pt"; ".pth"]); simpl; auto;
    destruct (YOLO hst path _) as [m | e]; simpl; auto;
    destruct (fuse_raises m); simpl; eauto.
Qed.

(** C10: a call of [load_model] that reports success has stored the
    loaded model and written its [imgsz] argument, or 640 when it has
    none, under [model_size], whatever was there before; every other
    key of the configuration is as before. *)
Theorem load_model_overwrites_model_size
    (hst : host) (w : worker) (path : string) :
  EmitModelLoaded true ∈ (load_model hst w path).2 ->
  ∃ m, YOLO hst path (device w) = Ok m
    ∧ model (load_model hst w path).1 = Some m
    ∧ params (load_model hst w path).1
      = <["model_size" := default (VInt 640) (args m !! "imgsz")]> (params w)
    ∧ params (load_model hst w path).1 !! "model_size"
      = Some (default (VInt 640) (args m !! "imgsz"))
    ∧ (∀ k, k ≠ "model_size" ->
         params (load_model hst w path).1 !! k = params w !! k).
Proof.
  unfold load_model, drop_model.
  destruct (model w) eqn:Hm; simpl;
    (destruct (path_exists hst path); simpl; [ | no_success ]);
    (destruct (endswith_any (str_lower hst path) [".pt"; ".pth"]); simpl;
       [ | no_success ]);
    (destruct (YOLO hst path (device w)) as [m | e]; simpl; [ | no_success ]);
    (destruct (fuse_raises m); simpl; [ no_success | ]);
    intros _; exists m;
    (split; [reflexivity | split; [reflexivity | split; [reflexivity | ]]]);
    (split; [apply lookup_insert_eq | intros k Hk; by apply lookup_insert_ne]).
Qed.

Lemma load_model_overwrites_model_size_witness :
  let w := (update_params Fixtures.fresh "model_size" (VInt 320)).1 in
  params w !! "model_size" = Some (VInt 320)
  ∧ ∃ m, YOLO Fixtures.a_host "best.PT" (device w) = Ok m
    ∧ model (load_model Fixtures.a_host w "best.PT").1 = Some m
    ∧ params (load_model Fixtures.a_host w "best.PT").1
      = <["model_size" := default (VInt 640) (args m !! "imgsz")]> (params w)
    ∧ params (load_model Fixtures.a_host w "best.PT").1 !! "model_size"
      = Some (default (VInt 640) (args m !! "imgsz"))
    ∧ (∀ k, k ≠ "model_size" ->
         params (load_model Fixtures.a_host w "best.PT").1 !! k = params w !! k).
Proof.
  split; [reflexivity | ].
  apply (load_model_overwrites_model_size Fixtures.a_host
           (update_params Fixtures.fresh "model_size" (VInt 320)).1 "best.PT").
  vm_compute. apply list_elem_of_here.
Defined.

(** A call that does not report success leaves the configuration alone. *)
Lemma load_model_failed_params (hst : host) (w : worker) (path : string) :
  EmitModelLoaded true ∉ (load_model hst w path).2 ->
  params (load_model hst w path).1 = params w.
Proof.
  unfold load_model, drop_model.
  destruct (model w); simpl;
    destruct (path_exists hst path); simpl; try done;
    destruct (endswith_any (str_lower hst path) [".pt"; ".pth"]); simpl; try done;
    destruct (YOLO hst path _) as [m | e]; simpl; try done;
    destruct (fuse_raises m); simpl; try done;
    intros H; exfalso; apply H; set_solver.
Qed.

(** ** Traces *)

Lemma new_counts_app (evs1 evs2 : list event) :
  new_counts (evs1 ++ evs2) = new_counts evs1 ++ new_counts evs2.
Proof.
  induction evs1 as [|e evs1 IH]; [done|].
  destruct e; simpl; by rewrite ?IH.
Qed.

Lemma frame_counts_app (evs1 evs2 : list event) :
  frame_counts (evs1 ++ evs2) = frame_counts evs1 ++ frame_counts evs2.
Proof.
  induction evs1 as [|e evs1 IH]; [done|].
  destruct e; simpl; by rewrite ?IH.
Qed.

Lemma sum_Z_app (l1 l2 : list Z) : sum_Z (l1 ++ l2) = sum_Z l1 + sum_Z l2.
Proof.
  unfold sum_Z. induction l1 as [|a l1 IH]; simpl; lia.
Qed.

(** ** The counting loop *)

(** The three ways the loop body can end. *)
Lemma count_detection_cases (w : worker) (c : Z) (box : box_t) (t : Z) :
  (∃ e, count_detection w c (box, t) = (w, Raise e, []))
  ∨ count_detection w c (box, t) = (w, Ok c, [])
  ∨ (t ≠ -1 ∧ (t ∉ counted_ids w)
     ∧ count_detection w c (box, t)
       = (set_counted_ids ({[t]} ∪ counted_ids w) w, Ok (c + 1),
          [LogNewCount t (total_count w + (c + 1))])).
Proof.
  unfold count_detection.
  destruct (bottom_test w box) as [[|]|e].
  - destruct (bool_decide (t ≠ -1)) eqn:E1;
      destruct (bool_decide (t ∉ counted_ids w)) eqn:E2; simpl; auto.
    apply bool_decide_eq_true_1 in E1. apply bool_decide_eq_true_1 in E2.
    right. right. auto.
  - auto.
  - left. eauto.
Qed.

Lemma count_detection_counting (w : worker) (c : Z) (d : detection) :
  let '(w', r, evs) := count_detection w c d in counting w w' c r evs.
Proof.
  destruct d as [box t].
  destruct (count_detection_cases w c box t) as [[e ->] | [-> | (Hne & Hnin & ->)]].
  - split; simpl; try done.
    + by destruct w.
    + set_solver.
    + constructor.
    + intros t' Ht'. by apply elem_of_nil in Ht'.
  - split; simpl; try done.
    + by destruct w.
    + set_solver.
    + constructor.
    + intros t' Ht'. by apply elem_of_nil in Ht'.
    + intros c' [= <-]. lia.
  - split; simpl; try done.
    + set_solver.
    + apply NoDup_singleton.
    + intros t' Ht'. apply list_elem_of_singleton in Ht' as ->. done.
    + intros c' [= <-]. lia.
Qed.

Lemma count_detections_counting (ds : list detection) (w : worker) (c : Z) :
  let '(w', r, evs) := count_detections w c ds in counting w w' c r evs.
Proof.
  revert w c. induction ds as [|d ds IH]; intros w c; simpl.
  - split; simpl; try done.
    + by destruct w.
    + set_solver.
    + constructor.
    + intros t' Ht'. by apply elem_of_nil in Ht'.
    + intros c' [= <-]. lia.
  - pose proof (count_detection_counting w c d) as H1.
    destruct (count_detection w c d) as [[w1 [c1|e]] evs1]; [ | done].
    specialize (IH w1 c1).
    destruct (count_detections w1 c1 ds) as [[w2 r] evs2].
    destruct H1 as [R1 S1 N1 F1 Q1 C1], IH as [R2 S2 N2 F2 Q2 C2].
    split.
    + rewrite R2, R1. by destruct w.
    + rewrite new_counts_app, list_to_set_app_L, S2, S1. set_solver.
    + rewrite new_counts_app. apply NoDup_app. split; [done|]. split; [|done].
      intros t Ht1 Ht2. apply F2 in Ht2 as [_ Hnin]. apply Hnin.
      rewrite S1. apply elem_of_union_l, elem_of_list_to_set, Ht1.
    + intros t. rewrite new_counts_app, elem_of_app. intros [Ht | Ht].
      * by apply F1.
      * apply F2 in Ht as [Hne Hnin]. split; [done|].
        intros Hin. apply Hnin. rewrite S1. by apply elem_of_union_r.
    + by rewrite frame_counts_app, Q1, Q2.
    + intros c' Hr. rewrite new_counts_app, length_app.
      specialize (C1 c1 eq_refl). specialize (C2 c' Hr). lia.
Qed.

(** ** Sessions: what every command keeps *)

(** A command that leaves both counters alone and logs no count. *)
Lemma session_quiet (w w' : worker) (evs : list event) :
  counted_ids w' = counted_ids w ->
  total_count w' = total_count w ->
  new_counts evs = [] ->
  frame_counts evs = [] ->
  session w w' evs.
Proof.
  intros Hc Ht Hn Hf. split; rewrite ?Hn, ?Hf, ?Hc, ?Ht; simpl.
  - set_solver.
  - constructor.
  - intros t Hin. by apply elem_of_nil in Hin.
  - lia.
  - constructor.
Qed.

Lemma session_app (w w1 w2 : worker) (evs1 evs2 : list event) :
  session w w1 evs1 -> session w1 w2 evs2 -> session w w2 (evs1 ++ evs2).
Proof.
  intros [S1 N1 F1 T1 P1] [S2 N2 F2 T2 P2]. split.
  - rewrite new_counts_app, list_to_set_app_L, S2, S1. set_solver.
  - rewrite new_counts_app. apply NoDup_app. split; [done|]. split; [|done].
    intros t Ht1 Ht2. apply F2 in Ht2 as [_ Hnin]. apply Hnin.
    rewrite S1. apply elem_of_union_l, elem_of_list_to_set, Ht1.
  - intros t. rewrite new_counts_app, elem_of_app. intros [Ht | Ht].
    + by apply F1.
    + apply F2 in Ht as [Hne Hnin]. split; [done|].
      intros Hin. apply Hnin. rewrite S1. by apply elem_of_union_r.
  - rewrite frame_counts_app, sum_Z_app, T2, T1. lia.
  - rewrite frame_counts_app. by apply Forall_app.
Qed.

Lemma detect_objects_quiet (w : worker) (f : frame) :
  new_counts (detect_objects w f).2 = []
  ∧ frame_counts (detect_objects w f).2 = [].
Proof.
  unfold detect_objects. destruct (model w); [ | done].
  match goal with |- context [match ?a with _ => _ end] => destruct a end;
    done.
Qed.

(** [process_frame] touches [counted_ids] only. *)
Lemma process_frame_counting (w : worker) (f : frame) :
  let '(w', r, evs) := process_frame w f in counting w w' 0 r evs.
Proof.
  unfold process_frame.
  pose proof (detect_objects_quiet w f) as [Hn Hf].
  destruct (detect_objects w f) as [ds evs0]. simpl in Hn, Hf.
  pose proof (count_detections_counting ds w 0) as H.
  destruct (count_detections w 0 ds) as [[w' r] evs].
  destruct H as [R S N F Q C]. split.
  - done.
  - by rewrite new_counts_app, Hn.
  - by rewrite new_counts_app, Hn.
  - intros t. rewrite new_counts_app, Hn. apply F.
  - by rewrite frame_counts_app, Hf, Q.
  - intros c' Hr. rewrite new_counts_app, Hn. by apply C.
Qed.

(** An iteration of the loop changes [counted_ids] and [total_count]
    and nothing else. *)
Lemma run_iteration_rest (w : worker) (r : read_outcome) :
  (run_iteration w r).1
  = set_total_count (total_count (run_iteration w r).1)
      (set_counted_ids (counted_ids (run_iteration w r).1) w).
Proof.
  unfold run_iteration.
  destruct (pause w || negb (cap_is_open w)); [by destruct w|].
  destruct r as [|f]; [by destruct w|].
  pose proof (process_frame_counting w f) as H.
  destruct (process_frame w f) as [[w' [c|e]] evs];
    destruct H as [R _ _ _ _ _]; simpl; rewrite R; by destruct w.
Qed.

Lemma run_iteration_session (w : worker) (r : read_outcome) :
  session w (run_iteration w r).1 (run_iteration w r).2.
Proof.
  unfold run_iteration.
  destruct (pause w || negb (cap_is_open w)).
  { apply session_quiet; by destruct (running w). }
  destruct r as [|f].
  { apply session_quiet; by destruct (running w), (source_ne_0 (source w)). }
  pose proof (process_frame_counting w f) as H.
  destruct (process_frame w f) as [[w' [c|e]] evs];
    destruct H as [R S N F Q C]; simpl.
  - assert (Hw : new_counts (if running w then [] else [ConditionWait]) = []
                 ∧ frame_counts (if running w then [] else [ConditionWait]) = [])
      by (by destruct (running w)).
    destruct Hw as [Hw1 Hw2].
    specialize (C c eq_refl).
    split; simpl;
      rewrite ?new_counts_app, ?frame_counts_app, ?Hw1, ?Hw2, ?Q; simpl;
      rewrite ?app_nil_r; try done.
    + rewrite R. simpl. unfold sum_Z. simpl. lia.
    + repeat constructor. lia.
  - assert (Hw : new_counts (if running w then [] else [ConditionWait]) = []
                 ∧ frame_counts (if running w then [] else [ConditionWait]) = [])
      by (by destruct (running w)).
    destruct Hw as [Hw1 Hw2].
    split; simpl;
      rewrite ?new_counts_app, ?frame_counts_app, ?Hw1, ?Hw2, ?Q; simpl;
      rewrite ?app_nil_r; try done.
    rewrite R. simpl. unfold sum_Z. simpl. lia.
Qed.

Lemma release_cap_quiet (w : worker) :
  counted_ids (release_cap w).1 = counted_ids w
  ∧ total_count (release_cap w).1 = total_count w
  ∧ new_counts (release_cap w).2 = []
  ∧ frame_counts (release_cap w).2 = [].
Proof.
  unfold release_cap. destruct (cap w) as [c|]; [destruct (isOpened c)|]; done.
Qed.

Lemma drop_model_quiet (w : worker) :
  counted_ids (drop_model w).1 = counted_ids w
  ∧ total_count (drop_model w).1 = total_count w
  ∧ new_counts (drop_model w).2 = []
  ∧ frame_counts (drop_model w).2 = [].
Proof. unfold drop_model. destruct (model w); done. Qed.

Lemma stop_session (w : worker) : session w (stop w).1 (stop w).2.
Proof.
  unfold stop.
  pose proof (release_cap_quiet (set_pause false (set_running false w)))
    as (C1 & T1 & N1 & F1).
  destruct (release_cap _) as [w1 evs1]. simpl in *.
  pose proof (drop_model_quiet w1) as (C2 & T2 & N2 & F2).
  destruct (drop_model w1) as [w2 evs2]. simpl in *.
  apply session_quiet; simpl.
  - by rewrite C2, C1.
  - by rewrite T2, T1.
  - by rewrite !new_counts_app, N1, N2.
  - by rewrite !frame_counts_app, F1, F2.
Qed.

Lemma load_model_session (hst : host) (w : worker) (path : string) :
  session w (load_model hst w path).1 (load_model hst w path).2.
Proof.
  unfold load_model.
  pose proof (drop_model_quiet w) as (C1 & T1 & N1 & F1).
  destruct (drop_model w) as [w1 evs1]. simpl in *.
  destruct (negb (path_exists hst path));
    [ | destruct (negb (endswith_any (str_lower hst path) [".pt"; ".pth"]));
        [ | destruct (YOLO hst path (device w1)) as [m|e];
            [ destruct (fuse_raises m) | ] ] ];
    apply session_quiet; simpl;
    rewrite ?new_counts_app, ?frame_counts_app, ?N1, ?F1; done.
Qed.

Lemma update_params_session (w : worker) (name : string) (v : pyval) :
  session w (update_params w name v).1 (update_params w name v).2.
Proof.
  unfold update_params. destruct (params w !! name); by apply session_quiet.
Qed.

(** Every command that is not a reset extends the session. *)
Lemma exec_session (hst : host) (w : worker) (c : command) :
  resets c = false -> session w (exec hst w c).1 (exec hst w c).2.
Proof.
  destruct c; simpl; try discriminate; intros _.
  - apply run_iteration_session.
  - apply load_model_session.
  - apply stop_session.
  - apply update_params_session.
  - by apply session_quiet.
  - by apply session_quiet.
Qed.

Lemma exec_all_session (hst : host) (cs : list command) (w : worker) :
  forallb (fun c => negb (resets c)) cs = true ->
  session w (exec_all hst w cs).1 (exec_all hst w cs).2.
Proof.
  revert w. induction cs as [|c cs IH]; intros w; simpl.
  - intros _. by apply session_quiet.
  - rewrite andb_true_iff, negb_true_iff. intros [Hc Hcs].
    pose proof (exec_session hst w c Hc) as H1.
    destruct (exec hst w c) as [w1 evs1].
    specialize (IH w1 Hcs).
    destruct (exec_all hst w1 cs) as [w2 evs2].
    exact (session_app _ _ _ _ _ H1 IH).
Qed.

Lemma exec_all_app (hst : host) (cs1 cs2 : list command) (w : worker) :
  exec_all hst w (cs1 ++ cs2)
  = let '(w1, evs1) := exec_all hst w cs1 in
    let '(w2, evs2) := exec_all hst w1 cs2 in
    (w2, evs1 ++ evs2).
Proof.
  revert w. induction cs1 as [|c cs1 IH]; intros w; simpl.
  - by destruct (exec_all hst w cs2).
  - destruct (exec hst w c) as [w0 evs0]. rewrite IH.
    destruct (exec_all hst w0 cs1) as [w1 evs1].
    destruct (exec_all hst w1 cs2) as [w2 evs2].
    by rewrite app_assoc.
Qed.

Lemma sum_Z_nonneg (l : list Z) : Forall (fun n => 0 ≤ n) l -> 0 ≤ sum_Z l.
Proof.
  unfold sum_Z. induction 1; simpl; lia.
Qed.

(** ** Counting once *)

(** C3: over any stretch of a session (iterations of the loop and calls
    of the control surface other than the two that reset), the
    identifiers added to [counted_ids] are the ones recorded as newly
    counted; they are pairwise distinct, none of them
    is -1 or was already counted, every identifier counted before or
    during the stretch is still counted after it, and a detection
    carrying such an identifier, wherever its box is, leaves the worker
    and the per-frame count as they are. [reset_counters] empties the
    set. *)
Theorem counted_at_most_once
    (hst : host) (w : worker) (cs : list command) :
  forallb (fun c => negb (resets c)) cs = true ->
  let '(w', evs) := exec_all hst w cs in
  counted_ids w' = list_to_set (new_counts evs) ∪ counted_ids w
  ∧ NoDup (new_counts evs)
  ∧ (∀ t, t ∈ new_counts evs ->
       t ≠ -1 ∧ (t ∉ counted_ids w) ∧ t ∈ counted_ids w')
  ∧ counted_ids w ⊆ counted_ids w'
  ∧ (∀ t c box, t ∈ counted_ids w' ->
       ∃ r, count_detection w' c (box, t) = (w', r, []) ∧ r ≠ Ok (c + 1))
  ∧ counted_ids (reset_counters w') = ∅.
Proof.
  intros Hcs. pose proof (exec_all_session hst cs w Hcs) as H.
  destruct (exec_all hst w cs) as [w' evs]. simpl in H.
  destruct H as [S N F _ _].
  split; [done|]. split; [done|]. split; [ | split; [ | split; [ | done]]].
  - intros t Ht. destruct (F t Ht) as [Hne Hnin].
    split; [done|]. split; [done|].
    rewrite S. apply elem_of_union_l, elem_of_list_to_set, Ht.
  - rewrite S. apply union_subseteq_r.
  - intros t c box Hin.
    destruct (count_detection_cases w' c box t)
      as [[e ->] | [-> | (_ & Hnin & _)]].
    + by eexists.
    + eexists. split; [done|]. intros [= ?]. lia.
    + done.
Qed.

Lemma counted_at_most_once_witness :
  let '(w', evs) :=
    exec_all Fixtures.a_host Fixtures.playing_file
      [Iterate (ReadReturns (Fixtures.one_box 20 575 20 30 (Some 7)));
       UpdateParams "detect_bottom" (VInt 40);
       Iterate (ReadReturns (Fixtures.one_box 20 580 20 30 (Some 7)))] in
  counted_ids w' = list_to_set (new_counts evs) ∪ counted_ids Fixtures.playing_file
  ∧ NoDup (new_counts evs)
  ∧ (∀ t, t ∈ new_counts evs ->
       t ≠ -1 ∧ (t ∉ counted_ids Fixtures.playing_file) ∧ t ∈ counted_ids w')
  ∧ counted_ids Fixtures.playing_file ⊆ counted_ids w'
  ∧ (∀ t c box, t ∈ counted_ids w' ->
       ∃ r, count_detection w' c (box, t) = (w', r, []) ∧ r ≠ Ok (c + 1))
  ∧ counted_ids (reset_counters w') = ∅.
Proof.
  exact (counted_at_most_once Fixtures.a_host Fixtures.playing_file
           [Iterate (ReadReturns (Fixtures.one_box 20 575 20 30 (Some 7)));
            UpdateParams "detect_bottom" (VInt 40);
            Iterate (ReadReturns (Fixtures.one_box 20 580 20 30 (Some 7)))]
           eq_refl).
Defined.

(** The scenario of the two frames: the box (10, 560, 20, 30) with
    identifier 7 is counted in the first frame and not in the second. *)
Example identifier_7_counted_once :
  let '(w', evs) :=
    run Fixtures.playing_file
      [ReadReturns (Fixtures.one_box 20 575 20 30 (Some 7));
       ReadReturns (Fixtures.one_box 20 575 20 30 (Some 7))] in
  new_counts evs = [7] ∧ frame_counts evs = [1; 0] ∧ total_count w' = 1.
Proof. vm_compute. done. Qed.

(** ** The cumulative count *)

(** C4: from a reset on, over any stretch of a session and any
    continuation of it, [total_count] is the sum of the per-frame counts
    published so far, every per-frame count is non-negative, and
    [total_count] after the continuation is at least what it was
    before it. *)
Theorem total_count_is_sum
    (hst : host) (w : worker) (cs1 cs2 : list command) :
  forallb (fun c => negb (resets c)) (cs1 ++ cs2) = true ->
  let '(w1, evs1) := exec_all hst (reset_counters w) cs1 in
  let '(w2, evs2) := exec_all hst w1 cs2 in
  total_count w1 = sum_Z (frame_counts evs1)
  ∧ total_count w2 = sum_Z (frame_counts (evs1 ++ evs2))
  ∧ Forall (fun n => 0 ≤ n) (frame_counts (evs1 ++ evs2))
  ∧ total_count w1 ≤ total_count w2.
Proof.
  rewrite forallb_app, andb_true_iff. intros [H1 H2].
  pose proof (exec_all_session hst cs1 (reset_counters w) H1) as S1.
  destruct (exec_all hst (reset_counters w) cs1) as [w1 evs1].
  pose proof (exec_all_session hst cs2 w1 H2) as S2.
  destruct (exec_all hst w1 cs2) as [w2 evs2]. simpl in *.
  destruct S1 as [_ _ _ T1 P1], S2 as [_ _ _ T2 P2].
  simpl in T1.
  pose proof (sum_Z_nonneg _ P2).
  rewrite frame_counts_app, sum_Z_app.
  split; [lia|]. split; [lia|]. split; [by apply Forall_app | lia].
Qed.

Lemma total_count_is_sum_witness :
  let '(w1, evs1) :=
    exec_all Fixtures.a_host (reset_counters Fixtures.playing_file)
      [Iterate (ReadReturns (Fixtures.one_box 20 575 20 30 (Some 7)));
       Iterate (ReadReturns (Fixtures.one_box 20 575 20 30 (Some 7)))] in
  let '(w2, evs2) :=
    exec_all Fixtures.a_host w1
      [Iterate ReadFails;
       Iterate (ReadReturns (Fixtures.one_box 20 575 20 30 (Some 8)))] in
  total_count w1 = sum_Z (frame_counts evs1)
  ∧ total_count w2 = sum_Z (frame_counts (evs1 ++ evs2))
  ∧ Forall (fun n => 0 ≤ n) (frame_counts (evs1 ++ evs2))
  ∧ total_count w1 ≤ total_count w2.
Proof.
  exact (total_count_is_sum Fixtures.a_host Fixtures.playing_file
           [Iterate (ReadReturns (Fixtures.one_box 20 575 20 30 (Some 7)));
            Iterate (ReadReturns (Fixtures.one_box 20 575 20 30 (Some 7)))]
           [Iterate ReadFails;
            Iterate (ReadReturns (Fixtures.one_box 20 575 20 30 (Some 8)))]
           eq_refl).
Defined.

(** ** Replaying after a reset *)

Lemma run_rest (reads : list read_outcome) (w : worker) :
  (run w reads).1
  = set_total_count (total_count (run w reads).1)
      (set_counted_ids (counted_ids (run w reads).1) w).
Proof.
  revert w. induction reads as [|r reads IH]; intros w; simpl.
  - by destruct w.
  - pose proof (run_iteration_rest w r) as H1.
    destruct (run_iteration w r) as [w1 evs1]. simpl in H1.
    specialize (IH w1).
    destruct (run w1 reads) as [w2 evs2]. simpl in *.
    rewrite IH, H1. by destruct w.
Qed.

(** The loop does not change what [reset_counters] keeps. *)
Lemma reset_counters_run (reads : list read_outcome) (w : worker) :
  reset_counters (run w reads).1 = reset_counters w.
Proof.
  rewrite run_rest. by destruct w.
Qed.

(** C6: after the loop has processed a sequence of reads from a reset,
    resetting again and giving it the same reads produces the same
    trace, hence the same per-frame counts, and ends with the same
    cumulative count, in the same state. *)
Theorem replay_after_reset (w : worker) (reads : list read_outcome) :
  let '(w1, evs1) := run (reset_counters w) reads in
  let '(w2, evs2) := run (reset_counters w1) reads in
  evs2 = evs1
  ∧ frame_counts evs2 = frame_counts evs1
  ∧ total_count w2 = total_count w1
  ∧ w2 = w1.
Proof.
  pose proof (reset_counters_run reads (reset_counters w)) as H.
  destruct (run (reset_counters w) reads) as [w1 evs1] eqn:E1. simpl in H.
  assert (Hr : reset_counters w1 = reset_counters w).
  { rewrite H. by destruct w. }
  rewrite Hr, E1. done.
Qed.

(** The counting loop reads of the worker its frame height, its
    configuration and the two counters only. *)
Lemma count_detections_agree (ds : list detection) (wa wb : worker) (c : Z) :
  frame_height wa = frame_height wb ->
  params wa = params wb ->
  counted_ids wa = counted_ids wb ->
  total_count wa = total_count wb ->
  (count_detections wa c ds).1.2 = (count_detections wb c ds).1.2
  ∧ (count_detections wa c ds).2 = (count_detections wb c ds).2
  ∧ counted_ids (count_detections wa c ds).1.1
    = counted_ids (count_detections wb c ds).1.1.
Proof.
  revert wa wb c. induction ds as [|[box t] ds IH]; intros wa wb c Hf Hp Hc Ht.
  - done.
  - cbn [count_detections].
    assert (Hstep :
      (count_detection wa c (box, t)).1.2 = (count_detection wb c (box, t)).1.2
      ∧ (count_detection wa c (box, t)).2 = (count_detection wb c (box, t)).2
      ∧ frame_height (count_detection wa c (box, t)).1.1
        = frame_height (count_detection wb c (box, t)).1.1
      ∧ params (count_detection wa c (box, t)).1.1
        = params (count_detection wb c (box, t)).1.1
      ∧ counted_ids (count_detection wa c (box, t)).1.1
        = counted_ids (count_detection wb c (box, t)).1.1
      ∧ total_count (count_detection wa c (box, t)).1.1
        = total_count (count_detection wb c (box, t)).1.1).
    { assert (Hbt : bottom_test wa box = bottom_test wb box)
        by (unfold bottom_test, touches_bottom; by rewrite Hf, Hp).
      unfold count_detection. rewrite Hbt, Hc, Ht.
      destruct (bottom_test wb box) as [[|]|e]; [ | done | done].
      destruct (_ && _); simpl; by rewrite ?Hc. }
    destruct (count_detection wa c (box, t)) as [[wa1 [ca|ea]] evsa];
      destruct (count_detection wb c (box, t)) as [[wb1 [cb|eb]] evsb];
      simpl in Hstep; destruct Hstep as (Hr & He & Hf1 & Hp1 & Hc1 & Ht1);
      try discriminate; [ | by repeat split].
    injection Hr as ->. subst evsb.
    specialize (IH wa1 wb1 cb Hf1 Hp1 Hc1 Ht1).
    destruct (count_detections wa1 cb ds) as [[wa2 ra] evsa2].
    destruct (count_detections wb1 cb ds) as [[wb2 rb] evsb2].
    simpl in *. destruct IH as (-> & -> & ->). done.
Qed.

(** ** End of stream *)

(** An iteration whose read fails leaves the worker as it is, emits
    [finished_signal] and goes on to the next iteration; it seeks back
    to the first frame exactly when the stored source differs from 0. *)
Lemma run_iteration_end_of_stream (w : worker) :
  pause w = false -> cap_is_open w = true ->
  run_iteration w ReadFails
  = (w, (if running w then [] else [ConditionWait])
          ++ (if source_ne_0 (source w) then [CapSeekFirst] else [])
          ++ [EmitFinished]).
Proof.
  intros Hp Hc. unfold run_iteration. by rewrite Hp, Hc.
Qed.

Lemma source_ne_0_spec (s : video_source) :
  source_ne_0 s = true <-> s ≠ Camera 0.
Proof.
  destruct s as [i|p]; simpl; [ | done].
  rewrite bool_decide_eq_true. split; [congruence | ].
  intros H Hi. apply H. by rewrite Hi.
Qed.

(** On a file the rewind is always done. *)
Lemma run_iteration_end_of_file (w : worker) (path : string) :
  pause w = false -> cap_is_open w = true -> source w = File path ->
  CapSeekFirst ∈ (run_iteration w ReadFails).2
  ∧ EmitFinished ∈ (run_iteration w ReadFails).2.
Proof.
  intros Hp Hc Hs. rewrite (run_iteration_end_of_stream w Hp Hc), Hs.
  simpl. destruct (running w); simpl; set_solver.
Qed.

(** C5, at the failing input: the worker plays camera 1, probed and
    opened through [set_source]; when a read of the camera fails the
    loop seeks the camera back to the first frame, as it does for a
    file, before it emits [finished_signal]. *)
Theorem run_iteration_rewinds_camera_1 :
  let w := Fixtures.playing_camera_1 in
  source w = Camera 1
  ∧ available_cameras w !! 1 = Some (Fixtures.cam 1)
  ∧ run_iteration w ReadFails = (w, [CapSeekFirst; EmitFinished]).
Proof.
  split; [by vm_compute | split; [by vm_compute | by vm_compute]].
Qed.

(** Camera 0 is the only source that is not rewound. *)
Example run_iteration_camera_0_not_rewound :
  let w := (exec_all Fixtures.a_host Fixtures.fresh
              [LoadModel "best.pt"; SetSource (Camera 0); SetRunning true]).1 in
  run_iteration w ReadFails = (w, [EmitFinished]).
Proof. by vm_compute. Qed.

(** ** The configuration keys *)

Lemma release_cap_params (w : worker) : params (release_cap w).1 = params w.
Proof.
  unfold release_cap. destruct (cap w) as [c|]; [destruct (isOpened c)|]; done.
Qed.

Lemma drop_model_params (w : worker) : params (drop_model w).1 = params w.
Proof. unfold drop_model. destruct (model w); done. Qed.

Lemma model_size_in_config_keys : ("model_size" : string) ∈ config_keys.
Proof. apply elem_of_dom. by eexists. Qed.

(** No command adds or removes a key of [params]: from [__init__] on the
    dictionary has the ten keys, and no lookup of one of them raises. *)
Lemma exec_config_keys (hst : host) (w : worker) (c : command) :
  dom (params w) = config_keys ->
  dom (params (exec hst w c).1) = config_keys.
Proof.
  intros Hdom.
  destruct c as [r | | path | src | | name v | b | b]; simpl; try done.
  - rewrite run_iteration_rest. done.
  - destruct (load_model_params hst w path) as [-> | [v ->]]; [done|].
    rewrite dom_insert_L, Hdom.
    apply subseteq_union_1_L, singleton_subseteq_l, model_size_in_config_keys.
  - unfold set_source.
    pose proof (release_cap_params w) as Hp.
    destruct (release_cap w) as [w1 evs]. simpl in Hp.
    match goal with |- context [match ?chk with _ => _ end] =>
      destruct chk as [[]|e] end; simpl; [ | by rewrite Hp].
    destruct (negb (isOpened _)); simpl; by rewrite Hp.
  - unfold stop.
    pose proof (release_cap_params (set_pause false (set_running false w))) as Hp.
    destruct (release_cap _) as [w1 evs1]. simpl in Hp.
    pose proof (drop_model_params w1) as Hq.
    destruct (drop_model w1) as [w2 evs2]. simpl in *. by rewrite Hq, Hp.
  - unfold update_params. destruct (params w !! name) eqn:Hn; simpl; [ | done].
    rewrite dom_insert_L, Hdom.
    apply subseteq_union_1_L, singleton_subseteq_l.
    rewrite <- Hdom. apply elem_of_dom. by eexists.
Qed.

Lemma exec_all_config_keys (hst : host) (cs : list command) (w : worker) :
  dom (params w) = config_keys ->
  dom (params (exec_all hst w cs).1) = config_keys.
Proof.
  revert w. induction cs as [|c cs IH]; intros w Hdom; simpl; [done|].
  pose proof (exec_config_keys hst w c Hdom) as H1.
  destruct (exec hst w c) as [w1 evs1]. specialize (IH w1 H1).
  by destruct (exec_all hst w1 cs).
Qed.

(** * Further properties of the worker *)

Lemma errors_of_app (evs1 evs2 : list event) :
  errors_of (evs1 ++ evs2) = errors_of evs1 ++ errors_of evs2.
Proof.
  induction evs1 as [|e evs1 IH]; [done|].
  destruct e; simpl; by rewrite ?IH.
Qed.

Lemma release_cap_frame (w : worker) :
  ∃ c', (release_cap w).1 = set_cap c' w
        ∧ errors_of (release_cap w).2 = []
        ∧ cap_is_open (release_cap w).1 = false.
Proof.
  exists (cap (release_cap w).1). split; [ | split].
  - unfold release_cap. destruct w as [? ? ? ? ? ? [c|] ? ? ? ? ? ? ?]; simpl;
      [destruct (isOpened c)|]; done.
  - unfold release_cap. destruct (cap w) as [c|]; [destruct (isOpened c)|]; done.
  - apply release_cap_closed.
Qed.

(** ** [set_source]: when it opens and what a failure keeps *)

(** The three ways [set_source] can end. *)
Lemma set_source_cases (hst : host) (w : worker) (src : video_source) :
  let w1 := (release_cap w).1 in
  let evs := (release_cap w).2 in
  let c := VideoCapture hst src in
  let valid :=
    match src with
    | Camera i => is_Some (available_cameras w !! i)
    | File path =>
      path_exists hst path = true
      ∧ endswith_any (str_lower hst path) [".mp4"; ".avi"; ".mkv"] = true
    end in
  (valid ∧ isOpened c = true
   ∧ set_source hst w src
     = (reset_counters
          (set_frame_height (trunc (cap_frame_height c))
             (set_cap (Some c) (set_source_attr src w1))), evs))
  ∨ (valid ∧ isOpened c = false
     ∧ set_source hst w src
       = (set_cap (Some c) (set_source_attr src w1),
          evs ++ [EmitError SetSourceFailed (CannotOpenSource src)]))
  ∨ (¬ valid
     ∧ ∃ e, set_source hst w src
            = (set_source_attr src w1, evs ++ [EmitError SetSourceFailed e])).
Proof.
  intros w1 evs c valid. unfold set_source.
  assert (Hav : available_cameras w1 = available_cameras w).
  { subst w1. destruct (release_cap_frame w) as (c' & -> & _). done. }
  subst w1 evs c valid. destruct (release_cap w) as [w1 evs]. simpl in *.
  destruct src as [i | path]; simpl in *.
  - rewrite Hav. destruct (available_cameras w !! i) eqn:Hi; simpl.
    + destruct (isOpened (VideoCapture hst (Camera i))) eqn:Ho; simpl;
        [left | right; left]; (split; [by eexists | done]).
    + right. right. split; [by intros [? ?]|]. by eexists.
  - destruct (path_exists hst path) eqn:Hp; simpl.
    + destruct (endswith_any (str_lower hst path) [".mp4"; ".avi"; ".mkv"]) eqn:He;
        simpl.
      * destruct (isOpened (VideoCapture hst (File path))) eqn:Ho; simpl;
          [left | right; left]; done.
      * right. right. split; [by intros [_ ?]|]. by eexists.
    + right. right. split; [by intros [? _]|]. by eexists.
Qed.

(** X1: a call of [set_source] that reports no error has opened the
    capture for the requested source, stored it and the source, taken
    the frame height from it and started a new session with both
    counters empty; configuration, model and the two flags are as
    before. *)
Theorem set_source_opens (hst : host) (w : worker) (src : video_source) :
  errors_of (set_source hst w src).2 = [] ->
  isOpened (VideoCapture hst src) = true
  ∧ cap (set_source hst w src).1 = Some (VideoCapture hst src)
  ∧ source (set_source hst w src).1 = src
  ∧ frame_height (set_source hst w src).1
    = trunc (cap_frame_height (VideoCapture hst src))
  ∧ total_count (set_source hst w src).1 = 0
  ∧ counted_ids (set_source hst w src).1 = ∅
  ∧ params (set_source hst w src).1 = params w
  ∧ model (set_source hst w src).1 = model w
  ∧ running (set_source hst w src).1 = running w
  ∧ pause (set_source hst w src).1 = pause w.
Proof.
  destruct (release_cap_frame w) as (c' & Hw1 & Hevs & _).
  destruct (set_source_cases hst w src)
    as [(_ & Ho & ->) | [(_ & _ & ->) | (_ & e & ->)]]; simpl.
  - intros _. rewrite Hw1. simpl. by repeat split.
  - rewrite errors_of_app, Hevs. discriminate.
  - rewrite errors_of_app, Hevs. discriminate.
Qed.

Lemma set_source_opens_witness :
  let w' := (set_source Fixtures.a_host Fixtures.playing_file (Camera 1)).1 in
  isOpened (VideoCapture Fixtures.a_host (Camera 1)) = true
  ∧ cap w' = Some (VideoCapture Fixtures.a_host (Camera 1))
  ∧ source w' = Camera 1
  ∧ frame_height w' = trunc (cap_frame_height (VideoCapture Fixtures.a_host (Camera 1)))
  ∧ total_count w' = 0
  ∧ counted_ids w' = ∅
  ∧ params w' = params Fixtures.playing_file
  ∧ model w' = model Fixtures.playing_file
  ∧ running w' = running Fixtures.playing_file
  ∧ pause w' = pause Fixtures.playing_file.
Proof.
  apply (set_source_opens Fixtures.a_host Fixtures.playing_file (Camera 1)).
  vm_compute. reflexivity.
Defined.

(** X2: [set_source] reports no error exactly when the source passes
    its check (a probed camera index, or an existing file whose path,
    lower-cased by the interpreter, ends in [.mp4], [.avi] or [.mkv])
    and the capture then opens. *)
Theorem set_source_reports_iff (hst : host) (w : worker) (src : video_source) :
  errors_of (set_source hst w src).2 = []
  <-> (match src with
       | Camera i => is_Some (available_cameras w !! i)
       | File path =>
         path_exists hst path = true
         ∧ endswith_any (str_lower hst path) [".mp4"; ".avi"; ".mkv"] = true
       end
       ∧ isOpened (VideoCapture hst src) = true).
Proof.
  destruct (release_cap_frame w) as (c' & Hw1 & Hevs & _).
  destruct (set_source_cases hst w src)
    as [(Hv & Ho & ->) | [(Hv & Ho & ->) | (Hv & e & ->)]]; simpl;
    rewrite ?errors_of_app, ?Hevs; simpl.
  - done.
  - split; [discriminate|]. intros [_ Ho']. congruence.
  - split; [discriminate|]. intros [Hv' _]. done.
Qed.

(** X3: a call of [set_source] that reports an error reports exactly
    one; it leaves the counting session, the configuration and the
    model as they were, stores the requested source all the same, and
    leaves the worker with no open capture. *)
Theorem set_source_failure (hst : host) (w : worker) (src : video_source) :
  errors_of (set_source hst w src).2 ≠ [] ->
  (∃ e, errors_of (set_source hst w src).2 = [(SetSourceFailed, e)])
  ∧ total_count (set_source hst w src).1 = total_count w
  ∧ counted_ids (set_source hst w src).1 = counted_ids w
  ∧ frame_height (set_source hst w src).1 = frame_height w
  ∧ params (set_source hst w src).1 = params w
  ∧ model (set_source hst w src).1 = model w
  ∧ source (set_source hst w src).1 = src
  ∧ cap_is_open (set_source hst w src).1 = false.
Proof.
  destruct (release_cap_frame w) as (c' & Hw1 & Hevs & Hc).
  destruct (set_source_cases hst w src)
    as [(_ & Ho & ->) | [(_ & Ho & ->) | (_ & e & ->)]]; simpl;
    rewrite ?errors_of_app, ?Hevs; simpl.
  - done.
  - intros _. rewrite Hw1. simpl. unfold cap_is_open. simpl.
    split; [by eexists|]. by repeat split.
  - intros _. split; [by eexists|].
    assert (cap_is_open (set_source_attr src (release_cap w).1) = false)
      by exact Hc.
    rewrite Hw1 in *. simpl. by repeat split.
Qed.

Lemma set_source_failure_witness :
  let r := set_source Fixtures.a_host Fixtures.playing_file (File "clip.mov") in
  (∃ e, errors_of r.2 = [(SetSourceFailed, e)])
  ∧ total_count r.1 = total_count Fixtures.playing_file
  ∧ counted_ids r.1 = counted_ids Fixtures.playing_file
  ∧ frame_height r.1 = frame_height Fixtures.playing_file
  ∧ params r.1 = params Fixtures.playing_file
  ∧ model r.1 = model Fixtures.playing_file
  ∧ source r.1 = File "clip.mov"
  ∧ cap_is_open r.1 = false.
Proof.
  apply (set_source_failure Fixtures.a_host Fixtures.playing_file
           (File "clip.mov")).
  vm_compute. discriminate.
Defined.

(** ** [load_model]: its signals and what a failure keeps *)

Lemma model_loaded_of_app (evs1 evs2 : list event) :
  model_loaded_of (evs1 ++ evs2) = model_loaded_of evs1 ++ model_loaded_of evs2.
Proof.
  induction evs1 as [|e evs1 IH]; [done|].
  destruct e; simpl; by rewrite ?IH.
Qed.

Lemma drop_model_frame (w : worker) :
  (drop_model w).1 = set_model None w
  ∧ errors_of (drop_model w).2 = []
  ∧ model_loaded_of (drop_model w).2 = [].
Proof.
  unfold drop_model. destruct (model w) eqn:Hm; simpl; [done|].
  split; [ | done]. destruct w; simpl in *. by subst.
Qed.

(** The three ways [load_model] can end. *)
Lemma load_model_cases (hst : host) (w : worker) (path : string) :
  let w1 := set_model None w in
  let evs := (drop_model w).2 in
  let ready :=
    path_exists hst path = true
    ∧ endswith_any (str_lower hst path) [".pt"; ".pth"] = true in
  (∃ m, ready ∧ YOLO hst path (device w) = Ok m ∧ fuse_raises m = None
        ∧ load_model hst w path
          = (set_model_path path
               (set_params
                  (<["model_size" := default (VInt 640) (args m !! "imgsz")]>
                     (params w))
                  (set_model (Some m) w1)),
             evs ++ [EmitModelLoaded true]))
  ∨ (∃ m e, ready ∧ YOLO hst path (device w) = Ok m ∧ fuse_raises m = Some e
            ∧ load_model hst w path
              = (set_model (Some m) w1,
                 evs ++ [EmitError ModelLoadFailed e; EmitModelLoaded false]))
  ∨ (∃ e, (¬ ready ∨ YOLO hst path (device w) = Raise e)
          ∧ load_model hst w path
            = (w1, evs ++ [EmitError ModelLoadFailed e; EmitModelLoaded false])).
Proof.
  intros w1 evs ready. subst w1 evs ready. unfold load_model.
  destruct (drop_model_frame w) as (Hw1 & _ & _).
  destruct (drop_model w) as [w1 evs]. simpl in Hw1. subst w1. simpl.
  destruct (path_exists hst path) eqn:Hp; simpl.
  - destruct (endswith_any (str_lower hst path) [".pt"; ".pth"]) eqn:He; simpl.
    + destruct (YOLO hst path (device w)) as [m | e] eqn:Hy; simpl.
      * destruct (fuse_raises m) as [e|] eqn:Hf; simpl.
        -- right. left. by exists m, e.
        -- left. by exists m.
      * right. right. exists e. split; [by right | done].
    + right. right. eexists. split; [left; by intros [_ ?] | done].
  - right. right. eexists. split; [left; by intros [? _] | done].
Qed.

(** X4: every call of [load_model] emits [model_loaded] exactly once;
    it emits [True], and then no error, exactly when the file exists,
    its lower-cased name ends in [.pt] or [.pth], the backend returns a
    model and fusing it does not raise; otherwise it emits exactly one
    error before [False]. *)
Theorem load_model_reports_once (hst : host) (w : worker) (path : string) :
  let evs := (load_model hst w path).2 in
  let loads :=
    path_exists hst path = true
    ∧ endswith_any (str_lower hst path) [".pt"; ".pth"] = true
    ∧ ∃ m, YOLO hst path (device w) = Ok m ∧ fuse_raises m = None in
  (loads ∧ model_loaded_of evs = [true] ∧ errors_of evs = [])
  ∨ (¬ loads ∧ model_loaded_of evs = [false]
     ∧ ∃ e, errors_of evs = [(ModelLoadFailed, e)]).
Proof.
  intros evs loads. subst evs loads.
  destruct (drop_model_frame w) as (_ & He & Hl).
  destruct (load_model_cases hst w path)
    as [(m & [Hp Hx] & Hy & Hf & ->)
       | [(m & e & [Hp Hx] & Hy & Hf & ->) | (e & Hwhy & ->)]]; simpl;
    rewrite errors_of_app, model_loaded_of_app, He, Hl; simpl.
  - left. split; [ | done]. split; [done|]. split; [done|]. by exists m.
  - right. split; [ | split; [done | by eexists]].
    intros (_ & _ & m' & Hy' & Hf'). congruence.
  - right. split; [ | split; [done | by eexists]].
    intros (Hp & Hx & m' & Hy' & _). destruct Hwhy as [Hn | Hr].
    + by apply Hn.
    + congruence.
Qed.

(** X5: a call of [load_model] that emits [False] leaves the
    configuration, the stored model path, the source, the capture and
    both counters as they were; the model loaded before the call is
    gone in every case: afterwards the worker holds no model, or, when
    it was [fuse] that raised, the model the backend had just returned. *)
Theorem load_model_failure (hst : host) (w : worker) (path : string) :
  model_loaded_of (load_model hst w path).2 = [false] ->
  load_model hst w path
  = (set_model (model (load_model hst w path).1) w,
     (load_model hst w path).2)
  ∧ (model (load_model hst w path).1 = None
     ∨ ∃ m e, YOLO hst path (device w) = Ok m ∧ fuse_raises m = Some e
              ∧ model (load_model hst w path).1 = Some m).
Proof.
  destruct (drop_model_frame w) as (_ & He & Hl).
  destruct (load_model_cases hst w path)
    as [(m & _ & Hy & Hf & ->)
       | [(m & e & _ & Hy & Hf & ->) | (e & _ & ->)]]; simpl;
    rewrite ?model_loaded_of_app, ?Hl; simpl.
  - discriminate.
  - intros _. split; [by destruct w|]. right. by exists m, e.
  - intros _. split; [by destruct w|]. by left.
Qed.

Lemma load_model_failure_witness :
  let r := load_model Fixtures.a_host Fixtures.playing_file "best.onnx" in
  r = (set_model (model r.1) Fixtures.playing_file, r.2)
  ∧ (model r.1 = None
     ∨ ∃ m e, YOLO Fixtures.a_host "best.onnx" (device Fixtures.playing_file) = Ok m
              ∧ fuse_raises m = Some e ∧ model r.1 = Some m).
Proof.
  apply (load_model_failure Fixtures.a_host Fixtures.playing_file "best.onnx").
  vm_compute. reflexivity.
Defined.

(** ** The extension checks *)

Lemma append_cons (c : ascii) (s t : string) :
  String c s +:+ t = String c (s +:+ t).
Proof. reflexivity. Qed.

Lemma append_nil_l (t : string) : "" +:+ t = t.
Proof. reflexivity. Qed.

Lemma append_nil_r (s : string) : s +:+ "" = s.
Proof.
  induction s as [|c s IH]; [done|]. by rewrite append_cons, IH.
Qed.

Lemma append_assoc (a b c : string) : (a +:+ b) +:+ c = a +:+ (b +:+ c).
Proof.
  induction a as [|x a IH]; [done|]. by rewrite !append_cons, IH.
Qed.

Lemma prefix_spec (a b : string) :
  String.prefix a b = true <-> ∃ t, b = a +:+ t.
Proof.
  revert b. induction a as [|x a IH]; intros b.
  - destruct b; split; eauto.
  - destruct b as [|y b]; simpl.
    + split; [discriminate | by intros [t ?]].
    + destruct (ascii_dec x y) as [-> | Hne].
      * rewrite IH. split; intros [t Ht]; exists t.
        -- by rewrite append_cons, Ht.
        -- rewrite append_cons in Ht. congruence.
      * split; [discriminate|]. intros [t Ht].
        rewrite append_cons in Ht. congruence.
Qed.

Lemma rev_onto_acc (s acc : string) :
  rev_onto s acc = rev_onto s "" +:+ acc.
Proof.
  revert acc. induction s as [|c s IH]; intros acc; simpl; [done|].
  rewrite (IH (String c acc)), (IH (String c "")), append_assoc. done.
Qed.

Lemma rev_onto_append (a b : string) :
  rev_onto (a +:+ b) "" = rev_onto b "" +:+ rev_onto a "".
Proof.
  induction a as [|c a IH].
  - by rewrite append_nil_l, append_nil_r.
  - rewrite append_cons. simpl.
    rewrite (rev_onto_acc (a +:+ b)), (rev_onto_acc a), IH, append_assoc. done.
Qed.

Lemma rev_onto_involutive (s : string) : rev_onto (rev_onto s "") "" = s.
Proof.
  induction s as [|c s IH]; simpl; [done|].
  rewrite (rev_onto_acc s), rev_onto_append, IH. done.
Qed.

(** [endswith] is the suffix test. *)
Lemma endswith_spec (s suffix : string) :
  endswith s suffix = true <-> ∃ pre, s = pre +:+ suffix.
Proof.
  unfold endswith. rewrite prefix_spec. split.
  - intros [t Ht]. exists (rev_onto t "").
    rewrite <- (rev_onto_involutive s), Ht, rev_onto_append,
      rev_onto_involutive. done.
  - intros [pre ->]. exists (rev_onto pre ""). apply rev_onto_append.
Qed.

Lemma endswith_any_spec (s : string) (suffixes : list string) :
  endswith_any s suffixes = true
  <-> ∃ pre suffix, suffix ∈ suffixes ∧ s = pre +:+ suffix.
Proof.
  unfold endswith_any. rewrite existsb_exists. split.
  - intros (suffix & Hin & He). apply endswith_spec in He as [pre ->].
    exists pre, suffix. split; [by apply list_elem_of_In | done].
  - intros (pre & suffix & Hin & ->). exists suffix.
    split; [by apply list_elem_of_In | apply endswith_spec; eauto].
Qed.

(** X6: for a file that exists, [set_source] reports the unsupported
    format exactly when the path, lower-cased by the interpreter, is
    not some prefix followed by [.mp4], [.avi] or [.mkv]; when it is,
    the only error [set_source] can still report is that the source
    does not open. *)
Theorem set_source_video_extension (hst : host) (w : worker) (path : string) :
  path_exists hst path = true ->
  (errors_of (set_source hst w (File path)).2
   = [(SetSourceFailed, UnsupportedVideoFormat)]
   <-> ¬ ∃ pre ext, ext ∈ [".mp4"; ".avi"; ".mkv"]
                    ∧ str_lower hst path = pre +:+ ext)
  ∧ ((∃ pre ext, ext ∈ [".mp4"; ".avi"; ".mkv"]
                 ∧ str_lower hst path = pre +:+ ext) ->
     errors_of (set_source hst w (File path)).2 = []
     ∨ errors_of (set_source hst w (File path)).2
       = [(SetSourceFailed, CannotOpenSource (File path))]).
Proof.
  intros Hp. rewrite <- endswith_any_spec.
  destruct (release_cap_frame w) as (c' & Hw1 & Hevs & _).
  unfold set_source. destruct (release_cap w) as [w1 evs]. simpl in *.
  rewrite Hp. simpl.
  destruct (endswith_any (str_lower hst path) [".mp4"; ".avi"; ".mkv"])
    eqn:He; simpl.
  - destruct (isOpened (VideoCapture hst (File path))); simpl;
      rewrite ?errors_of_app, ?Hevs; simpl;
      (split; [split; [discriminate | done] | intros _; auto]).
  - rewrite errors_of_app, Hevs. simpl.
    split; [split; [by intros _ | done] | discriminate].
Qed.

Lemma set_source_video_extension_witness :
  (errors_of (set_source Fixtures.a_host Fixtures.fresh (File "Belt.MKV")).2
   = [(SetSourceFailed, UnsupportedVideoFormat)]
   <-> ¬ ∃ pre ext, ext ∈ [".mp4"; ".avi"; ".mkv"]
                    ∧ str_lower Fixtures.a_host "Belt.MKV" = pre +:+ ext)
  ∧ ((∃ pre ext, ext ∈ [".mp4"; ".avi"; ".mkv"]
                 ∧ str_lower Fixtures.a_host "Belt.MKV" = pre +:+ ext) ->
     errors_of (set_source Fixtures.a_host Fixtures.fresh (File "Belt.MKV")).2
     = []
     ∨ errors_of (set_source Fixtures.a_host Fixtures.fresh (File "Belt.MKV")).2
       = [(SetSourceFailed, CannotOpenSource (File "Belt.MKV"))]).
Proof.
  exact (set_source_video_extension Fixtures.a_host Fixtures.fresh "Belt.MKV"
           eq_refl).
Defined.

(** ** [detect_objects]: pairing boxes with identifiers *)

Lemma combine_app_same {A B} (a1 a2 : list A) (b1 b2 : list B) :
  length a1 = length b1 ->
  combine (a1 ++ a2) (b1 ++ b2) = combine a1 b1 ++ combine a2 b2.
Proof.
  revert b1. induction a1 as [|x a1 IH]; intros [|y b1] Hl;
    simpl in *; try done.
  rewrite IH; [done | lia].
Qed.

Lemma detect_result_aligned (acc : list box_t * list Z) (r : track_result) :
  aligned r ->
  length acc.1 = length acc.2 ->
  length (detect_result acc r).1 = length (detect_result acc r).2
  ∧ combine (detect_result acc r).1 (detect_result acc r).2
    = combine acc.1 acc.2 ++ detections_of_result r.
Proof.
  intros Hal Hacc. unfold detect_result, detections_of_result.
  destruct (boxes r) as [b|] eqn:Hb; [ | by rewrite app_nil_r].
  assert (Hids : length (match id b with
                         | Some ids => ids
                         | None => replicate (length (xywh b)) (-1)
                         end) = length (xywh b)).
  { destruct (id b) as [ids|] eqn:Hi; [by apply (Hal b) | apply length_replicate]. }
  destruct (id b) as [ids|]; simpl in *.
  - split; [rewrite !length_app, length_map; lia|].
    by apply combine_app_same.
  - split; [rewrite !length_app, length_map; lia|].
    by apply combine_app_same.
Qed.

Lemma fold_detect_result_aligned (rs : list track_result)
    (acc : list box_t * list Z) :
  Forall aligned rs ->
  length acc.1 = length acc.2 ->
  combine (fold_left detect_result rs acc).1 (fold_left detect_result rs acc).2
  = combine acc.1 acc.2 ++ concat (map detections_of_result rs).
Proof.
  revert acc. induction rs as [|r rs IH]; intros acc Hrs Hacc; simpl.
  - by rewrite app_nil_r.
  - apply Forall_cons in Hrs as [Hr Hrs].
    destruct (detect_result_aligned acc r Hr Hacc) as [Hl Hc].
    rewrite (IH _ Hrs Hl), Hc, app_assoc. done.
Qed.

Lemma zip_detections_concat (rs : list track_result) :
  Forall aligned rs ->
  zip_detections rs = concat (map detections_of_result rs).
Proof.
  intros Hrs. unfold zip_detections.
  by rewrite (fold_detect_result_aligned rs ([], []) Hrs eq_refl).
Qed.

(** X7: when every result of the tracker that carries identifiers
    carries as many as it has rows, the detection list is the
    concatenation, result by result, of each result's boxes, their
    corners computed in float32, paired with its own identifiers (or
    with -1 when it has none); results without boxes contribute
    nothing. *)
Theorem zip_detections_aligned (rs : list track_result) :
  Forall aligned rs ->
  zip_detections rs = concat (map detections_of_result rs).
Proof.
  intros Hrs. unfold zip_detections.
  rewrite (fold_detect_result_aligned rs ([], []) Hrs eq_refl).
  reflexivity.
Qed.

Lemma zip_detections_aligned_witness :
  let rs :=
    [ {| boxes := Some {| xywh := [ {| x_center := Fin 20; y_center := Fin 575;
                                       width := Fin 20; height := Fin 30 |} ];
                          id := Some [7] |} |};
      {| boxes := None |};
      {| boxes := Some {| xywh := [ {| x_center := Fin 50; y_center := Fin 60;
                                       width := Fin 10; height := Fin 10 |} ];
                          id := None |} |} ] in
  zip_detections rs = concat (map detections_of_result rs).
Proof.
  apply zip_detections_aligned.
  repeat constructor; intros b ids Hb Hi; simpl in *;
    inversion Hb; subst; simpl in *; inversion Hi; reflexivity.
Defined.

(** The corner of a box is computed in float32: from the row
    (20, 566, 20, 30 + 2^-19) the top edge 566 - (15 + 2^-20) is the
    float 551, so that the box, 551 + 30 = 581 > 580, touches the
    bottom of a frame of 600 rows with the default offset. *)
Example box_of_row_rounds :
  let row := {| x_center := Fin 20; y_center := Fin 566;
                width := Fin 20; height := Fin (30 * 2 ^ 19 + 1 # 2 ^ 19) |} in
  box_y (box_of_row row) = Fin 551
  ∧ bottom_test Fixtures.playing_file (box_of_row row) = Ok true.
Proof. by vm_compute. Qed.

(** A result without identifiers gives detections that all carry -1. *)
Lemma detections_of_untracked (r : track_result) :
  (∀ b, boxes r = Some b -> id b = None) ->
  Forall (fun d : detection => d.2 = -1) (detections_of_result r).
Proof.
  intros Hr. unfold detections_of_result.
  destruct (boxes r) as [b|] eqn:Hb; [ | constructor].
  rewrite (Hr b eq_refl).
  generalize (map box_of_row (xywh b)) as bs.
  generalize (length (xywh b)) as n.
  induction n as [|n IH]; intros [|x bs]; simpl; constructor; auto.
Qed.

Lemma count_detections_untracked (ds : list detection) (w : worker) (c : Z) :
  Forall (fun d : detection => d.2 = -1) ds ->
  ∃ r, count_detections w c ds = (w, r, [])
       ∧ (r = Ok c
          ∨ ∃ d e, d ∈ ds ∧ bottom_test w d.1 = Raise e ∧ r = Raise e).
Proof.
  revert c. induction ds as [|[box t] ds IH]; intros c Hds;
    cbn [count_detections].
  - eexists. split; [done | by left].
  - apply Forall_cons in Hds as [Ht Hds]. simpl in Ht. subst t.
    unfold count_detection at 1.
    destruct (bottom_test w box) as [[|]|e] eqn:Hbt; simpl.
    + destruct (IH c Hds) as (r & -> & [-> | (d & e & Hd & He & ->)]).
      * eexists. split; [done | by left].
      * eexists. split; [done|]. right. exists d, e.
        split; [by apply list_elem_of_further | done].
    + destruct (IH c Hds) as (r & -> & [-> | (d & e & Hd & He & ->)]).
      * eexists. split; [done | by left].
      * eexists. split; [done|]. right. exists d, e.
        split; [by apply list_elem_of_further | done].
    + eexists. split; [done|]. right. exists (box, -1), e.
      split; [apply list_elem_of_here | done].
Qed.

(** X8: on a frame for which the tracker returns boxes but no
    identifiers, [process_frame] counts nothing: it leaves the worker,
    and so [counted_ids], as it was and logs nothing. It returns 0, or
    else raises the exception that the conversion, the drawing or the
    bottom test of one of the boxes raised; it returns 0 whenever none
    of them raises. *)
Theorem untracked_frame_never_counts
    (w : worker) (f : frame) (m : yolo) (conf iou imgsz : pyval)
    (rs : list track_result) :
  model w = Some m ->
  params w !! "model_conf" = Some conf ->
  params w !! "model_nms" = Some iou ->
  params w !! "model_size" = Some imgsz ->
  track f m conf iou imgsz (device w) = TrackReturns rs ->
  Forall (fun r => ∀ b, boxes r = Some b -> id b = None) rs ->
  ∃ r, process_frame w f = (w, r, [])
       ∧ (r = Ok 0
          ∨ ∃ d e, d ∈ zip_detections rs
                   ∧ bottom_test w d.1 = Raise e ∧ r = Raise e)
       ∧ ((∀ d, d ∈ zip_detections rs -> ∃ b, bottom_test w d.1 = Ok b) ->
          r = Ok 0).
Proof.
  intros Hm Hc Hi Hs Ht Hrs.
  unfold process_frame, detect_objects, getitem.
  rewrite Hm, Hc, Hi, Hs. simpl. rewrite Ht.
  assert (Hal : Forall aligned rs).
  { eapply Forall_impl; [exact Hrs|]. intros r Hr b ids Hb Hid.
    rewrite (Hr b Hb) in Hid. discriminate. }
  assert (Hall : Forall (fun d : detection => d.2 = -1) (zip_detections rs)).
  { rewrite (zip_detections_concat rs Hal).
    apply Forall_concat, Forall_map.
    eapply Forall_impl; [exact Hrs|]. apply detections_of_untracked. }
  destruct (count_detections_untracked _ w 0 Hall) as (r & -> & Hr).
  exists r. split; [done|]. split; [exact Hr|].
  intros Hok. destruct Hr as [-> | (d & e & Hd & He & ->)]; [done|].
  destruct (Hok d Hd) as [b Hb]. congruence.
Qed.

Lemma untracked_frame_never_counts_witness :
  let w := Fixtures.playing_file in
  let rs := [ {| boxes :=
                   Some {| xywh := [ {| x_center := Fixtures.fq 20;
                                        y_center := Fixtures.fq 575;
                                        width := Fixtures.fq 20;
                                        height := Fixtures.fq 30 |} ];
                           id := None |} |} ] in
  ∃ r, process_frame w (Fixtures.one_box 20 575 20 30 None) = (w, r, [])
       ∧ (r = Ok 0
          ∨ ∃ d e, d ∈ zip_detections rs
                   ∧ bottom_test w d.1 = Raise e ∧ r = Raise e)
       ∧ ((∀ d, d ∈ zip_detections rs -> ∃ b, bottom_test w d.1 = Ok b) ->
          r = Ok 0).
Proof.
  apply (untracked_frame_never_counts Fixtures.playing_file
           (Fixtures.one_box 20 575 20 30 None) Fixtures.a_model
           (VFloat (1 # 2)) (VFloat (2 # 5)) (VInt 640)
           [ {| boxes :=
                  Some {| xywh := [ {| x_center := Fixtures.fq 20;
                                       y_center := Fixtures.fq 575;
                                       width := Fixtures.fq 20;
                                       height := Fixtures.fq 30 |} ];
                          id := None |} |} ]).
  - by vm_compute.
  - by vm_compute.
  - by vm_compute.
  - by vm_compute.
  - reflexivity.
  - repeat constructor. intros b Hb. simpl in Hb. by inversion Hb.
Defined.

(** X9: when the tracker raises on a frame, the loop reports the error
    of [detect_objects] and still publishes the frame, with a per-frame
    count of 0 and the cumulative count unchanged; the worker is as
    before. *)
Theorem detect_failure_publishes
    (w : worker) (f : frame) (m : yolo) (conf iou imgsz : pyval) (e : exn) :
  model w = Some m ->
  params w !! "model_conf" = Some conf ->
  params w !! "model_nms" = Some iou ->
  params w !! "model_size" = Some imgsz ->
  track f m conf iou imgsz (device w) = TrackRaises e ->
  running w = true -> pause w = false -> cap_is_open w = true ->
  run_iteration w (ReadReturns f)
  = (w, [EmitError DetectFailed e; EmitChangePixmap;
         EmitUpdateCount (total_count w) 0; Msleep 20]).
Proof.
  intros Hm Hc Hi Hs Ht Hr Hp Ho.
  unfold run_iteration, process_frame, detect_objects, getitem.
  rewrite Hr, Hp, Ho, Hm, Hc, Hi, Hs. simpl. rewrite Ht. simpl.
  rewrite Z.add_0_r. f_equal. by destruct w.
Qed.

Lemma detect_failure_publishes_witness :
  run_iteration Fixtures.playing_file (ReadReturns Samples.raising)
  = (Fixtures.playing_file,
     [EmitError DetectFailed (BackendError 1); EmitChangePixmap;
      EmitUpdateCount (total_count Fixtures.playing_file) 0; Msleep 20]).
Proof.
  apply (detect_failure_publishes Fixtures.playing_file
           Samples.raising
           Fixtures.a_model (VFloat (1 # 2)) (VFloat (2 # 5)) (VInt 640)
           (BackendError 1)); by vm_compute.
Defined.

(** ** Counts and the size of [counted_ids] *)

Lemma size_fresh_union (l : list Z) (X : gset Z) :
  NoDup l -> (∀ t, t ∈ l -> t ∉ X) ->
  size (list_to_set l ∪ X : gset Z) = (length l + size X)%nat.
Proof.
  intros Hnd Hfresh. rewrite size_union.
  - by rewrite size_list_to_set.
  - intros t Ht HX. apply elem_of_list_to_set in Ht. by apply (Hfresh t).
Qed.

Lemma counting_size (w w' : worker) (c : Z) (r : res Z) (evs : list event) :
  counting w w' c r evs ->
  size (counted_ids w')
  = (length (new_counts evs) + size (counted_ids w))%nat.
Proof.
  intros [_ S N F _ _]. rewrite S. apply size_fresh_union; [done|].
  intros t Ht. by apply F.
Qed.

(** X10: the count [process_frame] returns for a frame is the number of
    identifiers the frame added to [counted_ids]; it is never negative,
    and [counted_ids] is the only attribute the frame changes. *)
Theorem frame_count_is_growth
    (w w' : worker) (f : frame) (c : Z) (evs : list event) :
  process_frame w f = (w', Ok c, evs) ->
  c = Z.of_nat (size (counted_ids w')) - Z.of_nat (size (counted_ids w))
  ∧ 0 ≤ c
  ∧ counted_ids w ⊆ counted_ids w'
  ∧ w' = set_counted_ids (counted_ids w') w.
Proof.
  intros Hpf. pose proof (process_frame_counting w f) as H.
  rewrite Hpf in H. pose proof (counting_size _ _ _ _ _ H) as Hsize.
  destruct H as [R S N F Q C]. specialize (C c eq_refl).
  split; [lia|]. split; [lia|]. split; [ | done].
  rewrite S. apply union_subseteq_r.
Qed.

Lemma frame_count_is_growth_witness :
  let w := Fixtures.playing_file in
  let w' := set_counted_ids {[7]} w in
  1 = Z.of_nat (size (counted_ids w')) - Z.of_nat (size (counted_ids w))
  ∧ 0 ≤ 1
  ∧ counted_ids w ⊆ counted_ids w'
  ∧ w' = set_counted_ids (counted_ids w') w.
Proof.
  apply (frame_count_is_growth Fixtures.playing_file
           (set_counted_ids {[7]} Fixtures.playing_file)
           (Fixtures.one_box 20 575 20 30 (Some 7)) 1 [LogNewCount 7 1]).
  by vm_compute.
Defined.

(** X11: when [process_frame] raises part of the way through a frame
    (a box that does not convert to integers), the loop reports the
    exception, publishes no count and leaves [total_count] as it was,
    while the identifiers the frame had already recorded stay in
    [counted_ids]: they are not counted then and cannot be counted
    later in the session. *)
Theorem frame_exception_drops_counts
    (w w' : worker) (f : frame) (e : exn) (evs : list event) :
  pause w = false -> cap_is_open w = true ->
  process_frame w f = (w', Raise e, evs) ->
  let '(w'', evs') := run_iteration w (ReadReturns f) in
  w'' = w'
  ∧ total_count w'' = total_count w
  ∧ frame_counts evs' = []
  ∧ errors_of evs' = errors_of evs ++ [(LoopFailed, e)]
  ∧ counted_ids w'' = list_to_set (new_counts evs') ∪ counted_ids w
  ∧ size (counted_ids w'')
    = (length (new_counts evs') + size (counted_ids w))%nat.
Proof.
  intros Hp Ho Hpf. pose proof (process_frame_counting w f) as H.
  rewrite Hpf in H. pose proof (counting_size _ _ _ _ _ H) as Hsize.
  destruct H as [R S N F Q C].
  unfold run_iteration. rewrite Hp, Ho, Hpf. simpl.
  assert (Hwait : ∀ rest, new_counts ((if running w then [] else [ConditionWait]) ++ rest)
                          = new_counts rest
                    ∧ frame_counts ((if running w then [] else [ConditionWait]) ++ rest)
                      = frame_counts rest
                    ∧ errors_of ((if running w then [] else [ConditionWait]) ++ rest)
                      = errors_of rest)
    by (intros rest; by destruct (running w)).
  destruct (Hwait (evs ++ [EmitError LoopFailed e; Msleep 20]))
    as (-> & -> & ->).
  rewrite new_counts_app, frame_counts_app, errors_of_app, Q. simpl.
  rewrite app_nil_r.
  split; [done|]. split; [by rewrite R|]. done.
Qed.

Lemma frame_exception_drops_counts_witness :
  let w := Fixtures.playing_file in
  (let '(w'', evs') := run_iteration w (ReadReturns Samples.half_counted) in
   w'' = set_counted_ids {[7]} w
   ∧ total_count w'' = total_count w
   ∧ frame_counts evs' = []
   ∧ errors_of evs' = errors_of [LogNewCount 7 1] ++ [(LoopFailed, NanToInt)]
   ∧ counted_ids w'' = list_to_set (new_counts evs') ∪ counted_ids w
   ∧ size (counted_ids w'')
     = (length (new_counts evs') + size (counted_ids w))%nat)
  ∧ new_counts (run_iteration w (ReadReturns Samples.half_counted)).2 = [7]
  ∧ total_count (run_iteration w (ReadReturns Samples.half_counted)).1 = 0.
Proof.
  split; [ | by vm_compute].
  apply (frame_exception_drops_counts Fixtures.playing_file
           (set_counted_ids {[7]} Fixtures.playing_file)
           Samples.half_counted NanToInt [LogNewCount 7 1]); by vm_compute.
Defined.

Lemma loop_failed_app (evs1 evs2 : list event) :
  loop_failed (evs1 ++ evs2) = loop_failed evs1 || loop_failed evs2.
Proof.
  induction evs1 as [|e evs1 IH]; [done|].
  destruct e; simpl; try done. by destruct origin.
Qed.

Lemma tally_quiet (w w' : worker) (evs : list event) :
  total_count w' = total_count w -> new_counts evs = [] -> tally w w' evs.
Proof. intros Ht Hn. unfold tally. rewrite Ht, Hn. simpl. lia. Qed.

Lemma tally_app (w w1 w2 : worker) (evs1 evs2 : list event) :
  tally w w1 evs1 -> tally w1 w2 evs2 -> tally w w2 (evs1 ++ evs2).
Proof.
  intros [L1 E1] [L2 E2]. unfold tally.
  rewrite new_counts_app, length_app, loop_failed_app. split; [lia|].
  intros [H1 H2]%orb_false_iff. specialize (E1 H1). specialize (E2 H2). lia.
Qed.

Lemma run_iteration_tally (w : worker) (r : read_outcome) :
  tally w (run_iteration w r).1 (run_iteration w r).2.
Proof.
  unfold run_iteration.
  destruct (pause w || negb (cap_is_open w)).
  { apply tally_quiet; by destruct (running w). }
  destruct r as [|f].
  { apply tally_quiet; by destruct (running w), (source_ne_0 (source w)). }
  pose proof (process_frame_counting w f) as H.
  destruct (process_frame w f) as [[w' [c|e]] evs];
    destruct H as [R S N F Q C]; simpl.
  - specialize (C c eq_refl). unfold tally. simpl.
    rewrite !new_counts_app. simpl. rewrite app_nil_r.
    replace (new_counts (if running w then [] else [ConditionWait]))
      with (@nil Z) by (by destruct (running w)).
    simpl. rewrite R. simpl. lia.
  - unfold tally. rewrite !loop_failed_app. simpl.
    rewrite !orb_true_r. rewrite R. simpl. split; [lia | discriminate].
Qed.

Lemma exec_tally (hst : host) (w : worker) (c : command) :
  resets c = false -> tally w (exec hst w c).1 (exec hst w c).2.
Proof.
  destruct c as [r | | path | src | | name v | b | b]; simpl;
    try discriminate; intros _.
  - apply run_iteration_tally.
  - destruct (drop_model_quiet w) as (_ & T1 & N1 & _).
    destruct (drop_model_frame w) as (Hw1 & _ & _).
    destruct (load_model_cases hst w path)
      as [(m & _ & _ & _ & ->) | [(m & e & _ & _ & _ & ->) | (e & _ & ->)]];
      apply tally_quiet; simpl; rewrite ?new_counts_app, ?N1; done.
  - pose proof (stop_session w) as [_ _ _ T _].
    unfold stop in *.
    destruct (release_cap_quiet (set_pause false (set_running false w)))
      as (_ & T1 & N1 & _).
    destruct (release_cap _) as [w1 evs1]. simpl in *.
    destruct (drop_model_quiet w1) as (_ & T2 & N2 & _).
    destruct (drop_model w1) as [w2 evs2]. simpl in *.
    apply tally_quiet; simpl.
    + by rewrite T2, T1.
    + by rewrite !new_counts_app, N1, N2.
  - unfold update_params. destruct (params w !! name); by apply tally_quiet.
  - by apply tally_quiet.
  - by apply tally_quiet.
Qed.

Lemma exec_all_tally (hst : host) (cs : list command) (w : worker) :
  forallb (fun c => negb (resets c)) cs = true ->
  tally w (exec_all hst w cs).1 (exec_all hst w cs).2.
Proof.
  revert w. induction cs as [|c cs IH]; intros w; simpl.
  - intros _. by apply tally_quiet.
  - rewrite andb_true_iff, negb_true_iff. intros [Hc Hcs].
    pose proof (exec_tally hst w c Hc) as H1.
    destruct (exec hst w c) as [w1 evs1].
    specialize (IH w1 Hcs).
    destruct (exec_all hst w1 cs) as [w2 evs2].
    exact (tally_app _ _ _ _ _ H1 IH).
Qed.

(** X12: from a reset on, over any stretch of a session, [total_count]
    never exceeds the number of identifiers in [counted_ids], and the
    two are equal as long as the handler of [run] has reported no
    exception. *)
Theorem total_count_le_counted
    (hst : host) (w : worker) (cs : list command) :
  forallb (fun c => negb (resets c)) cs = true ->
  let '(w', evs) := exec_all hst (reset_counters w) cs in
  total_count w' ≤ Z.of_nat (size (counted_ids w'))
  ∧ (loop_failed evs = false ->
     total_count w' = Z.of_nat (size (counted_ids w'))).
Proof.
  intros Hcs.
  pose proof (exec_all_session hst cs (reset_counters w) Hcs) as HS.
  pose proof (exec_all_tally hst cs (reset_counters w) Hcs) as HT.
  destruct (exec_all hst (reset_counters w) cs) as [w' evs]. simpl in *.
  destruct HS as [S N F _ _], HT as [L E]. simpl in L, E.
  assert (Hsize : size (counted_ids w') = length (new_counts evs)).
  { rewrite S, size_fresh_union; [ | done | intros t Ht; by apply F].
    change (counted_ids (reset_counters w)) with (∅ : gset Z).
    rewrite size_empty. lia. }
  rewrite Hsize. split; [lia|]. intros Hf. specialize (E Hf). lia.
Qed.

Lemma total_count_le_counted_witness :
  let '(w', evs) :=
    exec_all Fixtures.a_host (reset_counters Fixtures.playing_file)
      [Iterate (ReadReturns Samples.half_counted);
       Iterate (ReadReturns (Fixtures.one_box 20 575 20 30 (Some 9)))] in
  total_count w' ≤ Z.of_nat (size (counted_ids w'))
  ∧ (loop_failed evs = false ->
     total_count w' = Z.of_nat (size (counted_ids w'))).
Proof.
  exact (total_count_le_counted Fixtures.a_host Fixtures.playing_file
           [Iterate (ReadReturns Samples.half_counted);
            Iterate (ReadReturns (Fixtures.one_box 20 575 20 30 (Some 9)))]
           eq_refl).
Defined.

(** The inequality can be strict: after a frame that raised, one
    identifier is recorded and nothing was counted. *)
Example total_count_below_counted :
  let w := (run Fixtures.playing_file
              [ReadReturns Samples.half_counted;
               ReadReturns (Fixtures.one_box 20 575 20 30 (Some 7))]).1 in
  total_count w = 0 ∧ size (counted_ids w) = 1%nat.
Proof. by vm_compute. Qed.

(** ** What the loop leaves alone *)

(** X13: the loop, over any sequence of reads, changes [counted_ids]
    and [total_count] and nothing else: configuration, model, model
    path, source, capture, flags, frame height, device and the probed
    cameras are as they were. *)
Theorem run_touches_counters_only (w : worker) (reads : list read_outcome) :
  let w' := (run w reads).1 in
  params w' = params w ∧ model w' = model w ∧ model_path w' = model_path w
  ∧ source w' = source w ∧ cap w' = cap w
  ∧ running w' = running w ∧ pause w' = pause w
  ∧ frame_height w' = frame_height w ∧ device w' = device w
  ∧ available_cameras w' = available_cameras w
  ∧ tracked_objects w' = tracked_objects w ∧ next_id w' = next_id w.
Proof.
  intros w'. subst w'. rewrite run_rest. simpl. by repeat split.
Qed.

(** When the worker is paused or has no open capture, an iteration
    sleeps and does nothing else, whatever the read would return. *)
Lemma run_iteration_idle (w : worker) (r : read_outcome) :
  pause w = true ∨ cap_is_open w = false ->
  run_iteration w r
  = (w, (if running w then [] else [ConditionWait]) ++ [Msleep 50]).
Proof.
  intros H. unfold run_iteration.
  replace (pause w || negb (cap_is_open w)) with true; [done|].
  destruct H as [-> | ->]; [done | by rewrite orb_true_r].
Qed.

Lemma run_sleeps (w : worker) (reads : list read_outcome) :
  pause w = true ∨ cap_is_open w = false ->
  run w reads
  = (w, concat (map (fun _ => (if running w then [] else [ConditionWait])
                               ++ [Msleep 50]) reads)).
Proof.
  intros H. induction reads as [|r reads IH]; simpl; [done|].
  rewrite (run_iteration_idle w r H), IH. done.
Qed.

(** X14: while the worker is paused, or has no open capture, the loop
    consumes no frame: over any sequence of reads the worker is
    unchanged and each iteration only waits (when not running) and
    sleeps 50 ms. *)
Theorem run_idle (w : worker) (reads : list read_outcome) :
  pause w = true ∨ cap_is_open w = false ->
  run w reads
  = (w, concat (map (fun _ => (if running w then [] else [ConditionWait])
                               ++ [Msleep 50]) reads)).
Proof.
  intros H. induction reads as [|r reads IH]; simpl; [done|].
  unfold run_iteration at 1.
  replace (pause w || negb (cap_is_open w)) with true
    by (destruct H as [-> | ->]; [done | by rewrite orb_true_r]).
  by rewrite IH.
Qed.

Lemma run_idle_witness :
  let w := set_pause true Fixtures.playing_file in
  let reads := [ReadReturns (Fixtures.one_box 20 575 20 30 (Some 7)); ReadFails] in
  run w reads
  = (w, concat (map (fun _ => (if running w then [] else [ConditionWait])
                               ++ [Msleep 50]) reads)).
Proof.
  apply (run_idle (set_pause true Fixtures.playing_file)
           [ReadReturns (Fixtures.one_box 20 575 20 30 (Some 7)); ReadFails]).
  left. reflexivity.
Defined.

(** [stop] clears the two flags, closes the capture and drops the
    model, and touches nothing else. *)
Lemma stop_frame (w : worker) :
  ∃ c', (stop w).1
        = set_model None (set_cap c' (set_pause false (set_running false w)))
        ∧ cap_is_open (stop w).1 = false.
Proof.
  unfold stop.
  destruct (release_cap_frame (set_pause false (set_running false w)))
    as (c' & Hw1 & _ & Hc).
  destruct (release_cap _) as [w1 evs1]. simpl in *.
  destruct (drop_model_frame w1) as (Hw2 & _ & _).
  pose proof (drop_model_cap w1) as Hcap.
  destruct (drop_model w1) as [w2 evs2]. simpl in *.
  exists c'. split; [by rewrite Hw2, Hw1|].
  unfold cap_is_open in *. by rewrite Hcap.
Qed.

(** X15: after [stop] the loop is idle whatever it reads: the worker
    stays as [stop] left it, with the counters it had before [stop],
    and every iteration waits on the condition and sleeps. *)
Theorem run_after_stop (w : worker) (reads : list read_outcome) :
  run (stop w).1 reads
  = ((stop w).1, concat (map (fun _ => [ConditionWait; Msleep 50]) reads))
  ∧ total_count (stop w).1 = total_count w
  ∧ counted_ids (stop w).1 = counted_ids w.
Proof.
  destruct (stop_frame w) as (c' & Hw & Hc).
  rewrite (run_sleeps (stop w).1 reads (or_intror Hc)).
  rewrite Hw. simpl. done.
Qed.

Lemma run_after_stop_example :
  (run (stop Fixtures.playing_file).1
     [ReadReturns (Fixtures.one_box 20 575 20 30 (Some 7))]).2
  = [ConditionWait; Msleep 50].
Proof. by vm_compute. Qed.

(** ** The configuration along any history *)

(** X16: whatever commands the worker has executed since [__init__],
    its configuration has exactly the ten keys [__init__] gave it, so
    the lookups of [detect_objects] and [process_frame] find their
    keys. *)
Theorem config_keys_invariant
    (hst : host) (d : torch_device) (cams : gmap Z camera_info)
    (cs : list command) :
  let w := (exec_all hst (init d cams) cs).1 in
  dom (params w) = config_keys
  ∧ (∀ k, k ∈ ["model_conf"; "model_nms"; "model_size"; "detect_bottom"] ->
       ∃ v, getitem (params w) k = Ok v)
  ∧ config_keys
    = list_to_set ["track_dist"; "detect_bottom"; "min_area"; "max_area";
                   "model_conf"; "model_nms"; "model_size"; "track_enabled";
                   "track_buffer"; "track_min_hits"].
Proof.
  intros w.
  assert (Hdom : dom (params w) = config_keys)
    by (apply exec_all_config_keys; reflexivity).
  split; [done|]. split.
  - intros k Hk. unfold getitem.
    assert (Hin : k ∈ dom (params w)).
    { rewrite Hdom. unfold config_keys.
      repeat (apply elem_of_cons in Hk as [-> | Hk];
              [apply elem_of_dom; by eexists | ]).
      by apply elem_of_nil in Hk. }
    apply elem_of_dom in Hin as [v Hv]. rewrite Hv. by exists v.
  - unfold config_keys, default_params. rewrite !dom_insert_L, dom_empty_L.
    simpl. set_solver.
Qed.

(** ** The handlers of [App] *)

(** X17: after [stop], [start_video] only shows the warning that asks
    for a model: [stop] has dropped the model, so the worker cannot be
    started again before [load_model] has succeeded anew. *)
Theorem start_video_after_stop
    (hst : host) (w : worker) (ch : source_choice) :
  start_video hst (stop w).1 ch = ((stop w).1, [WarnSelectModel]).
Proof.
  destruct (stop_frame w) as (c' & Hw & _).
  unfold start_video. rewrite Hw. done.
Qed.

(** X18: with a model loaded and a source chosen, [start_video] sets
    [running] and clears [pause] whether or not [set_source] opened the
    source; when it did not, the woken loop finds no open capture and
    only sleeps, leaving the worker unchanged over any reads. *)
Theorem start_video_failed_source
    (hst : host) (w : worker) (ch : source_choice) (m : yolo)
    (src : video_source) :
  model w = Some m ->
  (∃ i, camera_radio ch = true ∧ camera_combo ch = Some i ∧ src = Camera i)
  ∨ (camera_radio ch = false ∧ video_path_edit ch ≠ ""
     ∧ src = File (video_path_edit ch)) ->
  errors_of (set_source hst w src).2 ≠ [] ->
  let w' := (start_video hst w ch).1 in
  running w' = true ∧ pause w' = false
  ∧ cap_is_open w' = false
  ∧ total_count w' = total_count w ∧ counted_ids w' = counted_ids w
  ∧ ∀ reads, run w' reads
             = (w', concat (map (fun _ => [Msleep 50]) reads)).
Proof.
  intros Hm Hch Herr.
  assert (Hsv : start_video hst w ch
                = (set_pause false (set_running true (set_source hst w src).1),
                   map FromWorker (set_source hst w src).2 ++ [WakeAll])).
  { unfold start_video. rewrite Hm.
    destruct Hch as [(i & Hr & Hcombo & ->) | (Hr & Hne & ->)].
    - rewrite Hr, Hcombo. by destruct (set_source hst w (Camera i)).
    - rewrite Hr. destruct (video_path_edit ch) as [|a s] eqn:Hp; [done|].
      by destruct (set_source hst w (File (String a s))). }
  intros w'. subst w'. rewrite Hsv. simpl.
  destruct (release_cap_frame w) as (c' & Hw1 & Hevs & Hc).
  assert (Hfail : cap_is_open (set_source hst w src).1 = false
                  ∧ total_count (set_source hst w src).1 = total_count w
                  ∧ counted_ids (set_source hst w src).1 = counted_ids w).
  { destruct (set_source_cases hst w src)
      as [(_ & _ & Hs) | [(_ & Ho & Hs) | (_ & e & Hs)]];
      rewrite Hs in *; simpl in *.
    - by rewrite Hevs in Herr.
    - rewrite Hw1. unfold cap_is_open. simpl. by rewrite Ho.
    - assert (cap_is_open (set_source_attr src (release_cap w).1) = false)
        by exact Hc.
      rewrite Hw1 in *. done. }
  destruct Hfail as (Ho & Ht & Hcn).
  assert (Hopen : cap_is_open
                    (set_pause false (set_running true (set_source hst w src).1))
                  = false) by exact Ho.
  split; [done|]. split; [done|].
  split; [done|]. split; [done|]. split; [done|].
  intros reads. by rewrite (run_sleeps _ reads (or_intror Hopen)).
Qed.

Lemma start_video_failed_source_witness :
  let ch := {| camera_radio := false; camera_combo := None;
               video_path_edit := "clip.mov" |} in
  let w' := (start_video Fixtures.a_host Fixtures.playing_file ch).1 in
  running w' = true ∧ pause w' = false
  ∧ cap_is_open w' = false
  ∧ total_count w' = total_count Fixtures.playing_file
  ∧ counted_ids w' = counted_ids Fixtures.playing_file
  ∧ ∀ reads, run w' reads
             = (w', concat (map (fun _ => [Msleep 50]) reads)).
Proof.
  apply (start_video_failed_source Fixtures.a_host Fixtures.playing_file
           {| camera_radio := false; camera_combo := None;
              video_path_edit := "clip.mov" |}
           Fixtures.a_model (File "clip.mov")).
  - by vm_compute.
  - right. split; [reflexivity | split; [discriminate | reflexivity]].
  - vm_compute. discriminate.
Defined.


(** X19: [pause_video] toggles [pause] and nothing else while the
    worker is running, so pressing it twice restores the worker; when
    the worker is not running, as after [stop], it does nothing. *)
Theorem pause_video_twice (w : worker) :
  pause_video (pause_video w) = w
  ∧ (running w = true -> pause (pause_video w) = negb (pause w))
  ∧ (running w = false -> pause_video w = w)
  ∧ pause_video (stop w).1 = (stop w).1.
Proof.
  split; [ | split; [ | split]].
  - unfold pause_video. destruct (running w) eqn:Hr; [ | by rewrite Hr].
    simpl. rewrite Hr, negb_involutive. by destruct w.
  - intros Hr. unfold pause_video. by rewrite Hr.
  - intros Hr. unfold pause_video. by rewrite Hr.
  - destruct (stop_frame w) as (c' & Hw & _).
    unfold pause_video. by rewrite Hw.
Qed.

(** ** Parameters and the next frame *)

(** X20: a value stored by [update_params] is the one the next frame
    uses: a new [model_conf] is the confidence handed to the tracker,
    and a new [detect_bottom] is the offset subtracted from the frame
    height, as Python subtracts it, in the bottom test. *)
Theorem update_params_next_frame
    (w : worker) (f : frame) (m : yolo) (old_conf iou imgsz old_bottom v : pyval)
    (y h : Z) :
  model w = Some m ->
  params w !! "model_conf" = Some old_conf ->
  params w !! "model_nms" = Some iou ->
  params w !! "model_size" = Some imgsz ->
  params w !! "detect_bottom" = Some old_bottom ->
  detect_objects (update_params w "model_conf" v).1 f
  = match track f m v iou imgsz (device w) with
    | TrackReturns results => (zip_detections results, [])
    | TrackRaises e => ([], [EmitError DetectFailed e])
    end
  ∧ touches_bottom (update_params w "detect_bottom" v).1 y h
    = match py_sub (frame_height w) v with
      | Ok line => Ok (py_gt (y + h) line)
      | Raise e => Raise e
      end.
Proof.
  intros Hm Hc Hi Hs Hb. split.
  - unfold update_params, detect_objects, getitem. rewrite Hc. simpl.
    rewrite Hm, lookup_insert_eq.
    rewrite !lookup_insert_ne by done. rewrite Hi, Hs. simpl.
    by destruct (track f m v iou imgsz (device w)).
  - unfold update_params, touches_bottom, getitem. rewrite Hb. simpl.
    by rewrite lookup_insert_eq.
Qed.

Lemma update_params_next_frame_witness :
  let w := Fixtures.playing_file in
  let f := Fixtures.one_box 20 575 20 30 (Some 7) in
  detect_objects (update_params w "model_conf" (VFloat (4 # 5))).1 f
  = match track f Fixtures.a_model (VFloat (4 # 5)) (VFloat (2 # 5))
            (VInt 640) (device w) with
    | TrackReturns results => (zip_detections results, [])
    | TrackRaises e => ([], [EmitError DetectFailed e])
    end
  ∧ touches_bottom
      (update_params w "detect_bottom" (VFloat (1 # 100000000000000000))).1
      570 30
    = match py_sub (frame_height w) (VFloat (1 # 100000000000000000)) with
      | Ok line => Ok (py_gt (570 + 30) line)
      | Raise e => Raise e
      end.
Proof.
  apply (update_params_next_frame Fixtures.playing_file
           (Fixtures.one_box 20 575 20 30 (Some 7)) Fixtures.a_model
           (VFloat (1 # 2)) (VFloat (2 # 5)) (VInt 640) (VInt 20)
           (VFloat (1 # 100000000000000000)) 570 30); by vm_compute.
Defined.

(** With the offset 1e-17 stored, a bottom edge of 600 in a frame of
    600 rows does not touch the bottom: the line is the double 600. *)
Example tiny_offset_is_rounded_away :
  touches_bottom
    (update_params Fixtures.playing_file "detect_bottom"
       (VFloat (1 # 100000000000000000))).1 570 30
  = Ok false.
Proof. by vm_compute. Qed.

(** ** Counting again after a reset *)

(** X21: [reset_counters] makes every identifier eligible again: right
    after it, a tracked detection whose box converts and is drawn and
    whose bottom edge exceeds the count line, as Python computes it, is
    counted, whether or not its identifier had been counted before the
    reset, and the logged total restarts from the per-frame count. *)
Theorem reset_counters_recounts
    (w : worker) (c : Z) (box : box_t) (t x y bw h : Z) (bottom : pyval)
    (line : pynum) :
  py_int (box_x box) = Ok x ->
  py_int (box_y box) = Ok y ->
  py_int (box_w box) = Ok bw ->
  py_int (box_h box) = Ok h ->
  rectangle x y bw h = Ok tt ->
  putText x y = Ok tt ->
  params w !! "detect_bottom" = Some bottom ->
  py_sub (frame_height w) bottom = Ok line ->
  t ≠ -1 ->
  py_gt (y + h) line = true ->
  count_detection (reset_counters w) c (box, t)
  = (set_counted_ids {[t]} (reset_counters w), Ok (c + 1),
     [LogNewCount t (c + 1)]).
Proof.
  intros Hx Hy Hw Hh Hr Hp Hb Hl Ht Hgt.
  assert (Hb' : params (reset_counters w) !! "detect_bottom" = Some bottom)
    by exact Hb.
  assert (Hl' : py_sub (frame_height (reset_counters w)) bottom = Ok line)
    by exact Hl.
  pose proof (touches_bottom_spec (reset_counters w) y h bottom line Hb' Hl')
    as Htb.
  unfold count_detection, bottom_test.
  rewrite Hx, Hy, Hw, Hh. simpl bind. rewrite Hr, Hp. simpl bind.
  rewrite Htb, Hgt.
  rewrite (bool_decide_eq_true_2 _ Ht).
  rewrite bool_decide_eq_true_2 by (simpl; set_solver).
  simpl. by rewrite (right_id_L ∅ (∪)).
Qed.

Lemma reset_counters_recounts_witness :
  let w := set_counted_ids {[7]} Fixtures.playing_file in
  7 ∈ counted_ids w
  ∧ count_detection (reset_counters w) 0 (Fixtures.box 10 560 20 30, 7)
    = (set_counted_ids {[7]} (reset_counters w), Ok (0 + 1),
       [LogNewCount 7 (0 + 1)]).
Proof.
  split; [simpl; set_solver | ].
  apply (reset_counters_recounts
           (set_counted_ids {[7]} Fixtures.playing_file) 0
           (Fixtures.box 10 560 20 30) 7 10 560 20 30 (VInt 20) (NInt 580)).
  - reflexivity.
  - reflexivity.
  - reflexivity.
  - reflexivity.
  - reflexivity.
  - reflexivity.
  - by vm_compute.
  - by vm_compute.
  - lia.
  - reflexivity.
Defined.

(** ** Choosing the device *)

(** X22: [_get_optimal_device] returns the Raspberry Pi GPU exactly
    when /proc/cpuinfo could be read, mentions "Raspberry Pi" and
    /dev/vchiq exists; failing that, CUDA exactly when it is available;
    and the CPU exactly when neither holds and none of MPS, Vulkan and
    OpenCL is present and available. *)
Theorem get_optimal_device_order (p : device_probe) :
  let raspberry :=
    ∃ text, cpuinfo p = Some text
            ∧ contains "Raspberry Pi" text = true
            ∧ vchiq_exists p = true in
  (get_optimal_device p = gpu <-> raspberry)
  ∧ (get_optimal_device p = cuda0
     <-> ¬ raspberry ∧ cuda_is_available p = true)
  ∧ (get_optimal_device p = cpu
     <-> ¬ raspberry ∧ cuda_is_available p = false
         ∧ mps_is_available p ≠ Some true
         ∧ vulkan_is_available p ≠ Some true
         ∧ opencl_is_available p ≠ Some true).
Proof.
  intros raspberry. unfold get_optimal_device.
  assert (Hr : (match cpuinfo p with
                | Some text => contains "Raspberry Pi" text && vchiq_exists p
                | None => false
                end) = true <-> raspberry).
  { subst raspberry. destruct (cpuinfo p) as [text|].
    - rewrite andb_true_iff. split.
      + intros [? ?]. by exists text.
      + intros (text' & [= <-] & ? & ?). done.
    - split; [discriminate | by intros (? & ? & _)]. }
  clearbody raspberry.
  destruct (match cpuinfo p with
            | Some text => contains "Raspberry Pi" text && vchiq_exists p
            | None => false
            end).
  { assert raspberry by (by apply Hr).
    split; [tauto|]. split; (split; [discriminate | tauto]). }
  assert (Hn : ¬ raspberry) by (intros H; by apply Hr in H).
  destruct (cuda_is_available p).
  { split; [split; [discriminate | tauto]|].
    split; [tauto|]. split; [discriminate|]. intros (_ & ? & _). discriminate. }
  split; [split; [ | tauto]|].
  { destruct (has_and_available (mps_is_available p)),
             (has_and_available (vulkan_is_available p)),
             (has_and_available (opencl_is_available p)); discriminate. }
  split; [split; [ | intros [_ ?]; discriminate]|].
  { destruct (has_and_available (mps_is_available p)),
             (has_and_available (vulkan_is_available p)),
             (has_and_available (opencl_is_available p)); discriminate. }
  destruct (mps_is_available p) as [[|]|];
    destruct (vulkan_is_available p) as [[|]|];
    destruct (opencl_is_available p) as [[|]|]; simpl;
    (split; [try discriminate; intros _; by repeat split
            | try done; intros (_ & _ & ? & ? & ?); congruence]).
Qed.

(** ** Probing the cameras *)

Lemma probe_camera_lookup (oc : Z -> probed_capture)
    (acc : gmap Z camera_info * list event) (a i : Z) :
  (probe_camera oc acc a).1 !! i
  = if bool_decide (i = a) && probe_isOpened (oc i) && probe_read (oc i)
    then Some (probe_info oc i) else acc.1 !! i.
Proof.
  unfold probe_camera. case_bool_decide as Hia; simpl.
  - subst a. destruct (probe_isOpened (oc i)); simpl; [ | done].
    destruct (probe_read (oc i)); simpl; [ | done].
    by rewrite lookup_insert_eq.
  - destruct (probe_isOpened (oc a)); simpl; [ | done].
    destruct (probe_read (oc a)); simpl; [ | done].
    by rewrite lookup_insert_ne.
Qed.

Lemma probe_fold_lookup (oc : Z -> probed_capture) (l : list Z)
    (acc : gmap Z camera_info * list event) (i : Z) :
  (fold_left (probe_camera oc) l acc).1 !! i
  = if bool_decide (i ∈ l) && probe_isOpened (oc i) && probe_read (oc i)
    then Some (probe_info oc i) else acc.1 !! i.
Proof.
  revert acc. induction l as [|a l IH]; intros acc; simpl; [done|].
  rewrite IH, probe_camera_lookup.
  destruct (probe_isOpened (oc i)), (probe_read (oc i));
    rewrite ?andb_false_r; simpl; try done.
  rewrite !andb_true_r.
  repeat case_bool_decide; try done; set_solver.
Qed.

Lemma probe_fold_events (oc : Z -> probed_capture) (l : list Z)
    (acc : gmap Z camera_info * list event) :
  (fold_left (probe_camera oc) l acc).2
  = acc.2 ++ replicate
               (length (List.filter (fun i => probe_isOpened (oc i)) l))
               CapRelease.
Proof.
  revert acc. induction l as [|a l IH]; intros acc; simpl.
  - by rewrite app_nil_r.
  - rewrite IH. unfold probe_camera.
    destruct (probe_isOpened (oc a)); simpl; [ | done].
    by rewrite <- app_assoc.
Qed.

Lemma get_available_cameras_lookup (oc : Z -> probed_capture) (i : Z) :
  (get_available_cameras oc).1 !! i
  = if bool_decide (0 ≤ i < 10) && probe_isOpened (oc i) && probe_read (oc i)
    then Some (probe_info oc i) else None.
Proof.
  unfold get_available_cameras. rewrite probe_fold_lookup. simpl.
  rewrite lookup_empty.
  assert (Hb : bool_decide (i ∈ seqZ 0 10) = bool_decide (0 ≤ i < 10)).
  { apply bool_decide_ext. rewrite elem_of_seqZ. lia. }
  by rewrite Hb.
Qed.

(** X23: [_get_available_cameras] lists a camera exactly when its index
    is one of 0 to 9 and the capture both opened and delivered a frame;
    the entry of a listed camera carries its own index and the probed
    resolution and rate; and every capture that opened while probing is
    released, once, whether or not it delivered a frame. *)
Theorem get_available_cameras_spec (open_camera : Z -> probed_capture) :
  let '(cams, evs) := get_available_cameras open_camera in
  (∀ i, is_Some (cams !! i)
        <-> 0 ≤ i < 10
            ∧ probe_isOpened (open_camera i) = true
            ∧ probe_read (open_camera i) = true)
  ∧ (∀ i info, cams !! i = Some info -> info = probe_info open_camera i)
  ∧ evs = replicate
            (length (List.filter (fun i => probe_isOpened (open_camera i))
                       (seqZ 0 10)))
            CapRelease.
Proof.
  pose proof (probe_fold_lookup open_camera (seqZ 0 10) (∅, [])) as Hl.
  pose proof (probe_fold_events open_camera (seqZ 0 10) (∅, [])) as He.
  unfold get_available_cameras.
  destruct (fold_left (probe_camera open_camera) (seqZ 0 10) (∅, []))
    as [cams evs]. simpl in Hl, He.
  split; [ | split; [ | done]].
  - intros i. rewrite Hl, lookup_empty.
    case_bool_decide as Hin; rewrite elem_of_seqZ in Hin;
      destruct (probe_isOpened (open_camera i)),
               (probe_read (open_camera i)); simpl;
      split; try (intros [? ?]; discriminate); try done;
      try (intros (? & ? & ?); first [discriminate | lia]).
  - intros i info. rewrite Hl, lookup_empty.
    destruct (_ && _ && _); [ | done]. by intros [= <-].
Qed.

Example get_available_cameras_sample :
  get_available_cameras Samples.open_camera
  = ({[ 0 := {| cam_index := 0; resolution := "640x480"; fps := 30 |} ]},
     [CapRelease; CapRelease]).
Proof. by vm_compute. Qed.

(** No command changes the probed cameras. *)
Lemma exec_available_cameras (hst : host) (w : worker) (c : command) :
  available_cameras (exec hst w c).1 = available_cameras w.
Proof.
  destruct c as [r | | path | src | | name v | b | b]; simpl; try done.
  - by rewrite run_iteration_rest.
  - destruct (load_model_cases hst w path)
      as [(m & _ & _ & _ & ->) | [(m & e & _ & _ & _ & ->) | (e & _ & ->)]];
      done.
  - destruct (release_cap_frame w) as (c' & Hw1 & _ & _).
    destruct (set_source_cases hst w src)
      as [(_ & _ & ->) | [(_ & _ & ->) | (_ & e & ->)]];
      simpl; by rewrite Hw1.
  - destruct (stop_frame w) as (c' & -> & _). done.
  - unfold update_params. by destruct (params w !! name).
Qed.

Lemma exec_all_available_cameras (hst : host) (cs : list command)
    (w : worker) :
  available_cameras (exec_all hst w cs).1 = available_cameras w.
Proof.
  revert w. induction cs as [|c cs IH]; intros w; simpl; [done|].
  pose proof (exec_available_cameras hst w c) as H1.
  destruct (exec hst w c) as [w1 evs1]. specialize (IH w1).
  destruct (exec_all hst w1 cs) as [w2 evs2]. simpl in *. congruence.
Qed.

(** X24: the cameras are probed once, at construction: whatever the
    worker has executed since, [set_source] rejects as unavailable
    every camera index that is not one of 0 to 9 or whose capture did
    not open and deliver a frame during the probe, and it never
    rejects a probed one as unavailable. *)
Theorem set_source_camera_probed
    (hst : host) (p : device_probe) (open_camera : Z -> probed_capture)
    (cs : list command) (i : Z) :
  let w := (exec_all hst (VideoThread p open_camera).1 cs).1 in
  let probed :=
    0 ≤ i < 10
    ∧ probe_isOpened (open_camera i) = true
    ∧ probe_read (open_camera i) = true in
  (errors_of (set_source hst w (Camera i)).2
   = [(SetSourceFailed, CameraUnavailable i)]
   <-> ¬ probed)
  ∧ (probed -> available_cameras w !! i = Some (probe_info open_camera i)).
Proof.
  intros w probed.
  assert (Hav : available_cameras w
                = (get_available_cameras open_camera).1).
  { subst w. rewrite exec_all_available_cameras. unfold VideoThread.
    by destruct (get_available_cameras open_camera). }
  pose proof (get_available_cameras_lookup open_camera i) as Hl.
  rewrite <- Hav in Hl.
  assert (Hp : probed <-> is_Some (available_cameras w !! i)).
  { subst probed. rewrite Hl.
    destruct (bool_decide (0 ≤ i < 10)) eqn:Hb;
      [apply bool_decide_eq_true_1 in Hb | apply bool_decide_eq_false_1 in Hb];
      destruct (probe_isOpened (open_camera i)),
               (probe_read (open_camera i)); simpl; split;
      try (intros (? & ? & ?); done); try (intros [? ?]; done); try done. }
  split.
  - rewrite Hp.
    destruct (release_cap_frame w) as (c' & Hw1 & Hevs & _).
    unfold set_source. destruct (release_cap w) as [w1 evs]. simpl in *.
    rewrite Hw1. simpl.
    destruct (available_cameras w !! i) as [info|] eqn:Hi; simpl.
    + destruct (isOpened (VideoCapture hst (Camera i))); simpl;
        rewrite ?errors_of_app, ?Hevs; simpl;
        (split; [discriminate | intros H; exfalso; apply H; by eexists]).
    + rewrite errors_of_app, Hevs. simpl.
      split; [intros _ [? ?]; discriminate | done].
  - intros H. apply Hp in H as [info Hi]. rewrite Hl in Hi.
    rewrite Hl. destruct (_ && _ && _); [done | discriminate].
Qed.

(** ** A failed read *)

(** X25: when the read of an iteration fails, the loop leaves the
    worker as it is, publishes no frame and no count, emits
    [finished_signal] and goes on; before that it seeks the capture
    back to its first frame exactly when the stored source is not
    camera 0, so always for a file. *)
Theorem failed_read_continues (w : worker) :
  pause w = false -> cap_is_open w = true ->
  let '(w', evs) := run_iteration w ReadFails in
  w' = w
  ∧ frame_counts evs = [] ∧ errors_of evs = []
  ∧ (CapSeekFirst ∈ evs <-> source w ≠ Camera 0)
  ∧ ((∃ path, source w = File path) -> CapSeekFirst ∈ evs)
  ∧ ∃ before, evs = before ++ [EmitFinished].
Proof.
  intros Hp Hc. rewrite (run_iteration_end_of_stream w Hp Hc).
  pose proof (source_ne_0_spec (source w)) as Hs.
  assert (Hseek : CapSeekFirst
                    ∈ (if running w then [] else [ConditionWait])
                      ++ (if source_ne_0 (source w) then [CapSeekFirst] else [])
                      ++ [EmitFinished]
                  <-> source w ≠ Camera 0).
  { rewrite <- Hs. rewrite !elem_of_app.
    destruct (running w), (source_ne_0 (source w));
      rewrite ?elem_of_cons, ?elem_of_nil; split; intros H;
      try done; try tauto;
      destruct H as [H | [H | H]]; try done;
      destruct H as [H | H]; done. }
  split; [done|].
  split; [by destruct (running w), (source_ne_0 (source w))|].
  split; [by destruct (running w), (source_ne_0 (source w))|].
  split; [exact Hseek|]. split.
  - intros [path Hf]. apply Hseek. by rewrite Hf.
  - eexists. by rewrite app_assoc.
Qed.

Lemma failed_read_continues_witness :
  let w := Fixtures.playing_file in
  let '(w', evs) := run_iteration w ReadFails in
  w' = w
  ∧ frame_counts evs = [] ∧ errors_of evs = []
  ∧ (CapSeekFirst ∈ evs <-> source w ≠ Camera 0)
  ∧ ((∃ path, source w = File path) -> CapSeekFirst ∈ evs)
  ∧ ∃ before, evs = before ++ [EmitFinished].
Proof.
  apply (failed_read_continues Fixtures.playing_file); by vm_compute.
Defined.
